(** * k8s_isi_provisioner: the Provision and Delete workflows

    A shallow embedding of [k8s_isi_provisioner.go].  The two methods of
    [isilonProvisioner] are written in a small monad that threads the state
    of the storage appliance and of the local file system, records every
    call made to them, and distinguishes a Go [return] from a Go [panic].

    Conventions.
    - A Go [string] is a sequence of bytes: [string] here.
    - A Go [map[string]string] is a [gmap string string].
    - A Go pair [(T, error)] of which the code reads the error first, and
      the value only when there is none, is a [result T]; the pair of
      [GetQuota], of which the code reads the value and drops the error,
      is a pair; a lone [error] is an [option error], with [None] for
      [nil].
    - The isilon client and [os.MkdirAll] are outside the repository: they
      are an arbitrary [Client], any state and any answers.
    - [glog] output is left out: no call in [Provision] or [Delete] is a
      fatal one, so logging never changes what the methods do. *)

From stdpp Require Import gmap strings list.
From Stdlib Require Import ZArith Ascii.

Open Scope Z_scope.

(** ** The Go library functions the workflow uses *)

Module strings.

(** [strings.Join(elems, sep)]. *)
Definition Join (elems : list string) (sep : string) : string :=
  String.concat sep elems.

(** [strings.Split(s, sep)] for a separator [sep] of one byte: the pieces
    of [s] between the occurrences of [sep], never an empty slice. *)
Fixpoint Split (s : string) (sep : ascii) : list string :=
  match s with
  | EmptyString => [""]
  | String a s' =>
      if decide (a = sep) then "" :: Split s' sep
      else match Split s' sep with
           | piece :: pieces => String a piece :: pieces
           | [] => [String a ""]
           end
  end.

(** ASCII lower-casing of one byte, and of a string.  On a string of
    ASCII bytes this is what [strings.ToLower] returns. *)
Definition lower_byte (a : ascii) : ascii :=
  let n := nat_of_ascii a in
  if ((65 <=? n) && (n <=? 90))%nat then ascii_of_nat (n + 32) else a.

Fixpoint ToLowerASCII (s : string) : string :=
  match s with
  | EmptyString => EmptyString
  | String a s' => String (lower_byte a) (ToLowerASCII s')
  end.

End strings.

Module path.

Definition slash : ascii := "/"%char.
Definition dot : ascii := "."%char.

(** The inner loop of the [..] case of [Clean]: [out.w] has just been
    decremented over the byte [popped]; keep decrementing while
    [out.w > dotdot] and the byte at [out.w] is not a slash.  The buffer
    [out] is kept with its last byte first, so [out.w] is its length. *)
Fixpoint backtrack (popped : ascii) (out : list ascii) (dotdot : nat)
  : list ascii :=
  match out with
  | [] => []
  | c :: out' =>
      if decide (dotdot < length out)%nat then
        if decide (popped = slash) then out else backtrack c out' dotdot
      else out
  end.

(** The main loop of [Clean] over the bytes [p] not yet read.  [copying]
    is set while the loop that copies a real path element runs; it stops
    at a slash or at the end of the path. *)
Fixpoint scan (rooted : bool) (p : list ascii) (copying : bool)
    (out : list ascii) (dotdot : nat) : list ascii :=
  let element p' c :=
    (* real path element: add slash if needed, then copy the element *)
    let w := length out in
    let out1 :=
      if (rooted && negb (w =? 1)%nat) || (negb rooted && negb (w =? 0)%nat)
      then slash :: out else out in
    scan rooted p' true (c :: out1) dotdot in
  match p with
  | [] => out
  | c :: p' =>
      if copying then
        if decide (c = slash) then scan rooted p' false out dotdot
        else scan rooted p' true (c :: out) dotdot
      else if decide (c = slash) then
        (* empty path element *)
        scan rooted p' false out dotdot
      else if decide (c = dot) then
        match p' with
        | [] => (* . element *) scan rooted p' false out dotdot
        | c1 :: p'' =>
            if decide (c1 = slash) then
              (* . element *) scan rooted p' false out dotdot
            else if decide (c1 = dot ∧ (p'' = [] ∨ head p'' = Some slash)) then
              (* .. element: remove to last slash *)
              if decide (dotdot < length out)%nat then
                (* can backtrack *)
                let out2 := match out with
                            | popped :: out' => backtrack popped out' dotdot
                            | [] => []
                            end in
                scan rooted p'' false out2 dotdot
              else if negb rooted then
                (* cannot backtrack, but not rooted, so append .. element *)
                let out1 :=
                  if decide (0 < length out)%nat then slash :: out else out in
                let out2 := dot :: dot :: out1 in
                scan rooted p'' false out2 (length out2)
              else scan rooted p'' false out dotdot
            else element p' c
        end
      else element p' c
  end.

(** [path.Clean(path)]. *)
Definition Clean (p : string) : string :=
  match String.list_ascii_of_string p with
  | [] => "."
  | c :: p' =>
      let out :=
        if decide (c = slash) then scan true p' false [slash] 1
        else scan false (c :: p') false [] 0 in
      match out with
      | [] => "."
      | _ => String.string_of_list_ascii (rev out)
      end
  end.

(** One round of the loop of [Join] that fills [buf]. *)
Definition join_step (buf e : string) : string :=
  if decide (buf = "" ∧ e = "") then buf
  else (if decide (buf = "") then buf else buf +:+ "/") +:+ e.

(** [path.Join(elem...)]. *)
Definition Join (elem : list string) : string :=
  if decide (sum_list (String.length <$> elem) = 0%nat) then ""
  else Clean (foldl join_step "" elem).

End path.

Arguments strings.Join : simpl never.
Arguments strings.Split : simpl never.
Arguments path.Join : simpl never.

(** ** Errors and results *)

(** The [error] values the workflow makes or passes on. *)
Inductive error : Type :=
  | errors_New (text : string)
      (* errors.New(text) *)
  | fmt_Errorf (format : string) (a : list string)
      (* fmt.Errorf(format, a...) *)
  | IgnoredError (Reason : string)
      (* &controller.IgnoredError{Reason: Reason} *)
  | foreign_error (text : string).
      (* an error made by the isilon client or by the os package *)

Global Instance error_eq_dec : EqDecision error.
Proof. solve_decision. Defined.

(** A Go pair [(T, error)] that the code looks at error first: the value
    beside an error that is not [nil] is never read. *)
Inductive result (A : Type) : Type :=
  | Ok (a : A)
  | Err (err : error).
Arguments Ok {A} a.
Arguments Err {A} err.

(** The controller tells errors apart by a type assertion to
    [controller.IgnoredError]: what passes it is ignored, anything else is
    reported and retried. *)
Definition is_ignored (err : error) : bool :=
  match err with
  | IgnoredError _ => true
  | _ => false
  end.

(** ** The orchestrator's objects, as far as the workflow reads or writes them *)

(** [resource.Quantity], seen through its method [Value()]. *)
Record Quantity : Type := { Value : Z }.

Definition ResourceStorage : string := "storage".

Record PersistentVolumeClaim : Type := {
  pvc_Namespace : string;
  pvc_Name : string;
  pvc_AccessModes : list string;
  pvc_Requests : gmap string Quantity;     (* Spec.Resources.Requests *)
}.

(** [controller.VolumeOptions]. *)
Record VolumeOptions : Type := {
  PersistentVolumeReclaimPolicy : string;
  PVName : string;
  PVC : PersistentVolumeClaim;
  Parameters : gmap string string;
}.

Record NFSVolumeSource : Type := {
  Server : string;
  Path : string;
  ReadOnly : bool;
}.

(** [v1.PersistentVolume]. *)
Record PersistentVolume : Type := {
  Name : string;
  Annotations : gmap string string;
  pv_ReclaimPolicy : string;
  AccessModes : list string;
  Capacity : gmap string Quantity;
  MountOptions : list string;
  NFS : option NFSVolumeSource;
}.

(** The struct [isilonProvisioner] without its [isiClient], which is the
    [Client] below. *)
Record isilonProvisioner : Type := {
  identity : string;
  volumeAccessPath : string;
  volumePath : string;
  serverName : string;
  exportsEnable : bool;
  quotaEnable : bool;
}.

(** ** The storage appliance and the file system *)

(** What the workflow calls: seven methods of [*isi.Client] and
    [os.MkdirAll].  Each answers from a state [World] and may change it.
    [GetQuota] answers with a pair, a quota or [nil] and an error or
    [nil], in any combination: [Delete] reads the first and drops the
    second. *)
Record Client : Type := {
  World : Type;
  Volume : Type;
  Quota : Type;
  CreateVolume : string → World → result Volume * World;
  DeleteVolume : string → World → option error * World;
  SetQuotaSize : string → Z → World → option error * World;
  GetQuota : string → World → (option Quota * option error) * World;
  ClearQuota : string → World → option error * World;
  ExportVolume : string → World → result Z * World;
  Unexport : string → World → option error * World;
  MkdirAll : string → N → World → option error * World;
}.

(** The calls, as the trace records them. *)
Inductive Call : Type :=
  | CallCreateVolume (name : string)
  | CallDeleteVolume (name : string)
  | CallSetQuotaSize (name : string) (size : Z)
  | CallGetQuota (name : string)
  | CallClearQuota (name : string)
  | CallExportVolume (name : string)
  | CallUnexport (name : string)
  | CallMkdirAll (path : string) (perm : N).

Global Instance Call_eq_dec : EqDecision Call.
Proof. solve_decision. Defined.

(** How a Go function ends. *)
Inductive outcome (R : Type) : Type :=
  | Returned (r : R)
  | Panicked (err : error).
Arguments Returned {R} r.
Arguments Panicked {R} err.

(** ** The monad of a function body *)

(** A statement goes on to the next one with a value, or leaves the
    function by [return], or panics. *)
Inductive flow (R A : Type) : Type :=
  | Next (a : A)
  | Return (r : R)
  | Panic (err : error).
Arguments Next {R A} a.
Arguments Return {R A} r.
Arguments Panic {R A} err.

Record State (W : Type) : Type := {
  world : W;
  calls : list Call;      (* oldest first *)
}.
Arguments world {W} _.
Arguments calls {W} _.

Definition M (W R A : Type) : Type := State W → flow R A * State W.

Global Instance M_ret {W R} : MRet (M W R) := λ A a s, (Next a, s).

Global Instance M_bind {W R} : MBind (M W R) := λ A B f m s,
  match m s with
  | (Next a, s') => f a s'
  | (Return r, s') => (Return r, s')
  | (Panic err, s') => (Panic err, s')
  end.

Definition return_ {W R A} (r : R) : M W R A := λ s, (Return r, s).

Definition panic {W R A} (err : error) : M W R A := λ s, (Panic err, s).

(** A call of the client: the answer comes from the world, the call goes
    to the end of the trace. *)
Definition call {W R A} (ev : Call) (op : W → A * W) : M W R A := λ s,
  let '(a, w) := op (world s) in
  (Next a, {| world := w; calls := calls s ++ [ev] |}).

Definition run {W R} (body : M W R R) (s : State W) : outcome R * State W :=
  match body s with
  | (Next r, s') | (Return r, s') => (Returned r, s')
  | (Panic err, s') => (Panicked err, s')
  end.

(** The state a request starts from: nothing called yet. *)
Definition start {W} (w : W) : State W := {| world := w; calls := [] |}.

(** ** The workflow *)

(** The name of the backend volume of a request (line 88). *)
Definition pvName (options : VolumeOptions) : string :=
  strings.Join
    [pvc_Namespace (PVC options); pvc_Name (PVC options); PVName options] "-".

(** [options.PVC.Spec.Resources.Requests[v1.ResourceStorage]]: a key that
    is not in a Go map reads as the zero value. *)
Definition capacity (options : VolumeOptions) : Quantity :=
  default {| Value := 0 |} (pvc_Requests (PVC options) !! ResourceStorage).

Definition pvcSize (options : VolumeOptions) : Z := Value (capacity options).

Section Workflow.

(** [strings.ToLower] follows Unicode's case tables, which are not part
    of the repository: any function stands for it. *)
Variable ToLower : string → string.

Variable isiClient : Client.

Local Abbreviation W := (World isiClient).

(** The loop over [options.Parameters].  Go visits the entries of a map
    in an order of its choosing: [entries] is the map in that order. *)
Fixpoint range_Parameters (entries : list (string * string))
    (mountOptions : list string)
  : M W (result PersistentVolume) (list string) :=
  match entries with
  | [] => mret mountOptions
  | (k, v) :: entries' =>
      if decide (ToLower k = "mountoptions") then
        range_Parameters entries' (strings.Split v ","%char)
      else return_ (Err (fmt_Errorf "invalid parameter: %q" [k]))
  end.

(** [Provision] creates a storage asset and returns a PV object
    representing it.  [entries] is [options.Parameters] in the order in
    which the [range] statement visits it. *)
Definition Provision (p : isilonProvisioner) (options : VolumeOptions)
    (entries : list (string * string))
  : M W (result PersistentVolume) (result PersistentVolume) :=
  let pvcNamespace := pvc_Namespace (PVC options) in
  let pvcName := pvc_Name (PVC options) in
  let pvcSize := Value (capacity options) in
  let pvName := strings.Join [pvcNamespace; pvcName; PVName options] "-" in
  let path := path.Join [volumePath p; pvName] in
  rcVolume ← call (CallCreateVolume pvName) (CreateVolume isiClient pvName);
  match rcVolume with
  | Err err => return_ (Err err)
  | Ok _ =>
      (if quotaEnable p then
         if decide (pvcSize ≤ 0) then
           return_ (Err (errors_New "No storage size requested and quotas enabled"))
         else
           (* the error of SetQuotaSize is logged, nothing else *)
           call (CallSetQuotaSize pvName pvcSize)
                (SetQuotaSize isiClient pvName pvcSize) ;;
           mret ()
       else mret ()) ;;
      (if exportsEnable p then
         rcExport ← call (CallExportVolume pvName) (ExportVolume isiClient pvName);
         match rcExport with
         | Err err => panic err
         | Ok _ => mret ()
         end
       else mret ()) ;;
      err ← call (CallMkdirAll path 0x1ff%N) (MkdirAll isiClient path 0x1ff%N);   (* 0777 *)
      match err with
      | Some err => return_ (Err err)
      | None =>
          mountOptions ← range_Parameters entries [];
          return_ (Ok {|
            Name := PVName options;
            Annotations :=
              {[ "isilonProvisionerIdentity" := identity p;
                 "isilonVolume" := pvName ]};
            pv_ReclaimPolicy := PersistentVolumeReclaimPolicy options;
            AccessModes := pvc_AccessModes (PVC options);
            Capacity := {[ ResourceStorage := capacity options ]};
            MountOptions := mountOptions;
            NFS := Some {| Server := serverName p;
                           Path := path;
                           ReadOnly := false |};
          |})
      end
  end.

(** [Delete] removes the storage asset that was created by [Provision]
    represented by the given PV. *)
Definition Delete (p : isilonProvisioner) (volume : PersistentVolume)
  : M W (option error) (option error) :=
  match Annotations volume !! "isilonProvisionerIdentity" with
  | None => return_ (Some (errors_New "identity annotation not found on PV"))
  | Some ann =>
      if decide (ann ≠ identity p) then
        return_ (Some (IgnoredError "identity annotation on PV does not match ours"))
      else
        match Annotations volume !! "isilonVolume" with
        | None => return_ (Some (IgnoredError "No isilon volume defined"))
        | Some isiVolume =>
            (* Back out the quota settings first *)
            (if quotaEnable p then
               (* quota, _ := GetQuota(...): the error is not looked at *)
               '(quota, _) ← call (CallGetQuota isiVolume) (GetQuota isiClient isiVolume);
               match quota with
               | Some _ =>
                   err ← call (CallClearQuota isiVolume) (ClearQuota isiClient isiVolume);
                   match err with
                   | Some err => panic err
                   | None => mret ()
                   end
               | None => mret ()
               end
             else mret ()) ;;
            (if exportsEnable p then
               err ← call (CallUnexport isiVolume) (Unexport isiClient isiVolume);
               match err with
               | Some err => panic err
               | None => mret ()
               end
             else mret ()) ;;
            (* if we get here we can destroy the volume *)
            err ← call (CallDeleteVolume isiVolume) (DeleteVolume isiClient isiVolume);
            match err with
            | Some err => panic err
            | None => return_ None
            end
        end
  end.

End Workflow.

(** ** The vocabulary of the statements *)

(** The teardown calls of a trace, in the order they were made. *)
Definition is_teardown (c : Call) : bool :=
  match c with
  | CallClearQuota _ | CallUnexport _ | CallDeleteVolume _ => true
  | _ => false
  end.

Definition teardown_calls (t : list Call) : list Call :=
  filter (λ c, is_teardown c = true) t.

(** The record carries the tag of the provisioner [p] and names the
    backend volume [v]. *)
Definition owned (p : isilonProvisioner) (volume : PersistentVolume)
    (v : string) : Prop :=
  Annotations volume !! "isilonProvisionerIdentity" = Some (identity p)
  ∧ Annotations volume !! "isilonVolume" = Some v.

Definition without_quota (p : isilonProvisioner) : isilonProvisioner := {|
  identity := identity p;
  volumeAccessPath := volumeAccessPath p;
  volumePath := volumePath p;
  serverName := serverName p;
  exportsEnable := exportsEnable p;
  quotaEnable := false;
|}.

(** Whether [GetQuota] gives a quota for [v] in the world [w], be it with
    an error beside it or without. *)
Definition quota_found (c : Client) (v : string) (w : World c) : bool :=
  match (GetQuota c v w).1.1 with
  | Some _ => true
  | None => false
  end.

(** The calls of a deletion that runs to its end. *)
Definition full_teardown (found : bool) (v : string) : list Call :=
  CallGetQuota v
    :: (if found then [CallClearQuota v] else [])
    ++ [CallUnexport v; CallDeleteVolume v].

(** The directory of a request's volume (line 91). *)
Definition mount_path (p : isilonProvisioner) (options : VolumeOptions) : string :=
  path.Join [volumePath p; pvName options].

(** The client [c], with a [SetQuotaSize] that changes the world as that
    of [c] does and reports no error. *)
Definition SetQuotaSize_unfailing (c : Client) : Client := {|
  World := World c;
  Volume := Volume c;
  Quota := Quota c;
  CreateVolume := CreateVolume c;
  DeleteVolume := DeleteVolume c;
  SetQuotaSize name size w := (None, (SetQuotaSize c name size w).2);
  GetQuota := GetQuota c;
  ClearQuota := ClearQuota c;
  ExportVolume := ExportVolume c;
  Unexport := Unexport c;
  MkdirAll := MkdirAll c;
|}.

(** The client [c], with a [GetQuota] that answers and changes the world
    as that of [c] does, but for the error, which it leaves out. *)
Definition GetQuota_silent (c : Client) : Client := {|
  World := World c;
  Volume := Volume c;
  Quota := Quota c;
  CreateVolume := CreateVolume c;
  DeleteVolume := DeleteVolume c;
  SetQuotaSize := SetQuotaSize c;
  GetQuota name w := (((GetQuota c name w).1.1, None), (GetQuota c name w).2);
  ClearQuota := ClearQuota c;
  ExportVolume := ExportVolume c;
  Unexport := Unexport c;
  MkdirAll := MkdirAll c;
|}.

Definition policy_violation : error :=
  errors_New "No storage size requested and quotas enabled".

(** The error of the parameter check on the key [k]. *)
Definition invalid_parameter (k : string) : error :=
  fmt_Errorf "invalid parameter: %q" [k].

(** [entries] is the map [options.Parameters] in some order. *)
Definition visits (options : VolumeOptions) (entries : list (string * string))
  : Prop :=
  entries ≡ₚ map_to_list (Parameters options).

Definition with_identity (id : string) (p : isilonProvisioner)
  : isilonProvisioner := {|
  identity := id;
  volumeAccessPath := volumeAccessPath p;
  volumePath := volumePath p;
  serverName := serverName p;
  exportsEnable := exportsEnable p;
  quotaEnable := quotaEnable p;
|}.

(** The outcome [r], with the ownership tag of its record set to [id]. *)
Definition retag (id : string) (r : outcome (result PersistentVolume))
  : outcome (result PersistentVolume) :=
  match r with
  | Returned (Ok pv) =>
      Returned (Ok {|
        Name := Name pv;
        Annotations := <[ "isilonProvisionerIdentity" := id ]> (Annotations pv);
        pv_ReclaimPolicy := pv_ReclaimPolicy pv;
        AccessModes := AccessModes pv;
        Capacity := Capacity pv;
        MountOptions := MountOptions pv;
        NFS := NFS pv;
      |})
  | _ => r
  end.

(** Whether the byte [a] occurs in [s]. *)
Fixpoint mentions (a : ascii) (s : string) : bool :=
  match s with
  | EmptyString => false
  | String b s' => bool_decide (a = b) || mentions a s'
  end.

(** The three fields the name of the backend volume is made of. *)
Definition same_fields (o1 o2 : VolumeOptions) : Prop :=
  pvc_Namespace (PVC o1) = pvc_Namespace (PVC o2)
  ∧ pvc_Name (PVC o1) = pvc_Name (PVC o2)
  ∧ PVName o1 = PVName o2.

(** Neither the namespace nor the name of the claim holds a [-]. *)
Definition dashless (o : VolumeOptions) : Prop :=
  mentions "-" (pvc_Namespace (PVC o)) = false
  ∧ mentions "-" (pvc_Name (PVC o)) = false.

(** A real path element: not empty, no slash in it, neither [.] nor [..]. *)
Definition plain_element (name : list ascii) : Prop :=
  name ≠ []
  ∧ (path.slash ∉ name)
  ∧ name ≠ [path.dot]
  ∧ name ≠ [path.dot; path.dot].

(** ** A scripted client, for running the workflow on concrete requests *)

(** What each call answers; a [Some] in an error field makes it fail. *)
Record Script : Type := {
  on_CreateVolume : option error;
  on_SetQuotaSize : option error;
  on_GetQuota : option Z * option error;
  on_ClearQuota : option error;
  on_ExportVolume : option error;
  on_Unexport : option error;
  on_DeleteVolume : option error;
  on_MkdirAll : option error;
}.

Definition answer {A} (a : A) (failure : option error) : result A :=
  match failure with
  | None => Ok a
  | Some err => Err err
  end.

(** The world of the scripted client counts the calls it has served. *)
Definition scripted (sc : Script) : Client := {|
  World := nat;
  Volume := string;
  Quota := Z;
  CreateVolume name w := (answer name (on_CreateVolume sc), S w);
  DeleteVolume name w := (on_DeleteVolume sc, S w);
  SetQuotaSize name size w := (on_SetQuotaSize sc, S w);
  GetQuota name w := (on_GetQuota sc, S w);
  ClearQuota name w := (on_ClearQuota sc, S w);
  ExportVolume name w := (answer 1 (on_ExportVolume sc), S w);
  Unexport name w := (on_Unexport sc, S w);
  MkdirAll path perm w := (on_MkdirAll sc, S w);
|}.

(** Every call succeeds; the volume has a quota. *)
Definition all_fine : Script := {|
  on_CreateVolume := None;
  on_SetQuotaSize := None;
  on_GetQuota := (Some 1073741824, None);
  on_ClearQuota := None;
  on_ExportVolume := None;
  on_Unexport := None;
  on_DeleteVolume := None;
  on_MkdirAll := None;
|}.

Definition provisioner (quota exports : bool) : isilonProvisioner := {|
  identity := "isilon.example.com";
  volumeAccessPath := "/ifs/data/k8s";
  volumePath := "/ifs/data/k8s";
  serverName := "isilon.example.com";
  exportsEnable := exports;
  quotaEnable := quota;
|}.

Definition request (size : Z) (parameters : gmap string string)
  : VolumeOptions := {|
  PersistentVolumeReclaimPolicy := "Delete";
  PVName := "pv-0001";
  PVC := {| pvc_Namespace := "team-a";
            pvc_Name := "claim1";
            pvc_AccessModes := ["ReadWriteMany"];
            pvc_Requests := {[ ResourceStorage := {| Value := size |} ]} |};
  Parameters := parameters;
|}.

(** A record as [Provision] writes it, with the given annotations. *)
Definition record (annotations : gmap string string) : PersistentVolume := {|
  Name := "pv-0001";
  Annotations := annotations;
  pv_ReclaimPolicy := "Delete";
  AccessModes := ["ReadWriteMany"];
  Capacity := {[ ResourceStorage := {| Value := 0 |} ]};
  MountOptions := [];
  NFS := Some {| Server := "isilon.example.com";
                 Path := "/ifs/data/k8s/team-a-claim1-pv-0001";
                 ReadOnly := false |};
|}.

Definition owned_record : PersistentVolume :=
  record {[ "isilonProvisionerIdentity" := "isilon.example.com";
            "isilonVolume" := "team-a-claim1-pv-0001" ]}.

(** [GetQuota] reports an error and no quota. *)
Definition quota_not_found : Script := {|
  on_CreateVolume := None;
  on_SetQuotaSize := None;
  on_GetQuota := (None, Some (foreign_error "Quota not found"));
  on_ClearQuota := None;
  on_ExportVolume := None;
  on_Unexport := None;
  on_DeleteVolume := None;
  on_MkdirAll := None;
|}.

(** [GetQuota] reports an error beside a quota. *)
Definition quota_and_error : Script := {|
  on_CreateVolume := None;
  on_SetQuotaSize := None;
  on_GetQuota := (Some 1073741824, Some (foreign_error "stale session"));
  on_ClearQuota := None;
  on_ExportVolume := None;
  on_Unexport := None;
  on_DeleteVolume := None;
  on_MkdirAll := None;
|}.

Definition export_fails : Script := {|
  on_CreateVolume := None;
  on_SetQuotaSize := None;
  on_GetQuota := (Some 1073741824, None);
  on_ClearQuota := None;
  on_ExportVolume := Some (foreign_error "export failed");
  on_Unexport := None;
  on_DeleteVolume := None;
  on_MkdirAll := None;
|}.

Definition create_fails : Script := {|
  on_CreateVolume := Some (foreign_error "create failed");
  on_SetQuotaSize := None;
  on_GetQuota := (None, None);
  on_ClearQuota := None;
  on_ExportVolume := None;
  on_Unexport := None;
  on_DeleteVolume := None;
  on_MkdirAll := None;
|}.

Definition quota_fails : Script := {|
  on_CreateVolume := None;
  on_SetQuotaSize := Some (foreign_error "quota refused");
  on_GetQuota := (None, None);
  on_ClearQuota := None;
  on_ExportVolume := None;
  on_Unexport := None;
  on_DeleteVolume := None;
  on_MkdirAll := None;
|}.

Definition request_named (namespace name target : string) : VolumeOptions := {|
  PersistentVolumeReclaimPolicy := "Delete";
  PVName := target;
  PVC := {| pvc_Namespace := namespace;
            pvc_Name := name;
            pvc_AccessModes := ["ReadWriteMany"];
            pvc_Requests := ∅ |};
  Parameters := ∅;
|}.

(** ** The start of the process *)

(** ASCII upper-casing, the counterpart of [strings.ToLowerASCII]: on a
    string of ASCII bytes this is what [strings.ToUpper] returns. *)
Definition upper_byte (a : ascii) : ascii :=
  let n := nat_of_ascii a in
  if ((97 <=? n) && (n <=? 122))%nat then ascii_of_nat (n - 32) else a.

Fixpoint ToUpperASCII (s : string) : string :=
  match s with
  | EmptyString => EmptyString
  | String a s' => String (upper_byte a) (ToUpperASCII s')
  end.

Definition provisionerName : string := "example.com/isilon".

(** [version.Info], as far as [main] reads it. *)
Record Info : Type := { GitVersion : string }.

(** What [main] finds when it starts: whether the flags parse (if not,
    [flag.Parse] leaves the process with a status), the answers of the
    cluster, the environment of the process, and the answer of
    [isi.NewClientWithArgs] to the endpoint, the insecure flag, the user,
    the group, the password, the access path and the path. *)
Record Host : Type := {
  Config : Type;
  Clientset : Type;
  flag_Parse : option Z;
  InClusterConfig : result Config;
  NewForConfig : Config → result Clientset;
  ServerVersion : Clientset → result Info;
  environ : gmap string string;
  NewClientWithArgs :
    string → bool → string → string → string → string → string → result Client;
}.

(** [os.Getenv]: a variable that is not set reads as the empty string. *)
Definition Getenv (h : Host) (key : string) : string :=
  default "" (environ h !! key).

(** What [controller.NewProvisionController] is given. *)
Record ProvisionController (K : Type) : Type := {
  pc_client : K;
  pc_provisionerName : string;
  pc_provisioner : isilonProvisioner;
  pc_isiClient : Client;
  pc_serverVersion : string;
}.
Arguments pc_client {K} _.
Arguments pc_provisionerName {K} _.
Arguments pc_provisioner {K} _.
Arguments pc_isiClient {K} _.
Arguments pc_serverVersion {K} _.

(** How [main] ends: the process is left by [flag.Parse], by [glog.Fatalf]
    or [glog.Fatal], or by a panic; or the controller runs, which it does
    for as long as the process lives. *)
Inductive ending (K : Type) : Type :=
  | os_Exit (code : Z)
  | glog_Fatalf (format : string) (err : error)
  | glog_Fatal (text : string)
  | main_panic (err : error)
  | pc_Run (pc : ProvisionController K).
Arguments os_Exit {K} code.
Arguments glog_Fatalf {K} format err.
Arguments glog_Fatal {K} text.
Arguments main_panic {K} err.
Arguments pc_Run {K} pc.

(** [main].  [ToUpper] stands for [strings.ToUpper], as [ToLower] does for
    [strings.ToLower] in [Provision]. *)
Definition main (ToUpper : string → string) (h : Host) : ending (Clientset h) :=
  match flag_Parse h with
  | Some code => os_Exit code
  | None =>
  (* Create an InClusterConfig and use it to create a client *)
  match InClusterConfig h with
  | Err err => glog_Fatalf "Failed to create config: %v" err
  | Ok config =>
  match NewForConfig h config with
  | Err err => glog_Fatalf "Failed to create client: %v" err
  | Ok clientset =>
  match ServerVersion h clientset with
  | Err err => glog_Fatalf "Error getting server version: %v" err
  | Ok serverVersion =>
  (* Get server name and NFS root path from environment *)
  let isiServer := Getenv h "ISI_SERVER" in
  if decide (isiServer = "") then glog_Fatal "ISI_SERVER not set" else
  let isiPath := Getenv h "ISI_PATH" in
  if decide (isiPath = "") then glog_Fatal "ISI_PATH not set" else
  let isiAccessPath := Getenv h "ISI_ACCESSPATH" in
  let isiAccessPath :=
    if decide (isiAccessPath = "") then isiPath else isiAccessPath in
  let isiUser := Getenv h "ISI_USER" in
  if decide (isiUser = "") then glog_Fatal "ISI_USER not set" else
  let isiPass := Getenv h "ISI_PASS" in
  if decide (isiPass = "") then glog_Fatal "ISI_PASS not set" else
  let isiGroup := Getenv h "ISI_GROUP" in
  if decide (isiPass = "") then glog_Fatal "ISI_GROUP not set" else
  (* set isiquota to false by default *)
  let isiQuotaEnable := ToUpper (Getenv h "ISI_QUOTA_ENABLE") in
  let isiQuota := bool_decide (isiQuotaEnable = "TRUE") in
  (* set isiexports to false by default *)
  let isiExportsEnable := ToUpper (Getenv h "ISI_EXPORTS_ENABLE") in
  let isiExports := bool_decide (isiExportsEnable = "TRUE") in
  let isiEndpoint := "https://" +:+ isiServer +:+ ":8080" in
  match NewClientWithArgs h isiEndpoint true isiUser isiGroup isiPass
          isiAccessPath isiPath with
  | Err err => main_panic err
  | Ok i =>
      pc_Run {|
        pc_client := clientset;
        pc_provisionerName := provisionerName;
        pc_provisioner := {|
          identity := isiServer;
          volumeAccessPath := isiAccessPath;
          volumePath := isiPath;
          serverName := isiServer;
          exportsEnable := isiExports;
          quotaEnable := isiQuota;
        |};
        pc_isiClient := i;
        pc_serverVersion := GitVersion serverVersion;
      |}
  end
  end end end end.

(** The cluster answers, and the flags parse. *)
Definition cluster_up (h : Host) (clientset : Clientset h) (version : Info)
  : Prop :=
  flag_Parse h = None
  ∧ ∃ config, InClusterConfig h = Ok config
              ∧ NewForConfig h config = Ok clientset
              ∧ ServerVersion h clientset = Ok version.

(** The four settings [main] insists on. *)
Definition settings_given (h : Host) : Prop :=
  Getenv h "ISI_SERVER" ≠ "" ∧ Getenv h "ISI_PATH" ≠ ""
  ∧ Getenv h "ISI_USER" ≠ "" ∧ Getenv h "ISI_PASS" ≠ "".

(** The access path [main] settles on. *)
Definition access_path (h : Host) : string :=
  if decide (Getenv h "ISI_ACCESSPATH" = "") then Getenv h "ISI_PATH"
  else Getenv h "ISI_ACCESSPATH".

(** The answer of the appliance to the connection [main] asks for. *)
Definition connection (h : Host) : result Client :=
  NewClientWithArgs h ("https://" +:+ Getenv h "ISI_SERVER" +:+ ":8080") true
    (Getenv h "ISI_USER") (Getenv h "ISI_GROUP") (Getenv h "ISI_PASS")
    (access_path h) (Getenv h "ISI_PATH").

(** ** More vocabulary: plans of calls, parameters, names *)

(** The calls of a [Provision] that runs to its end. *)
Definition provision_plan (p : isilonProvisioner) (options : VolumeOptions)
  : list Call :=
  [CallCreateVolume (pvName options)]
  ++ (if quotaEnable p
      then [CallSetQuotaSize (pvName options) (pvcSize options)] else [])
  ++ (if exportsEnable p then [CallExportVolume (pvName options)] else [])
  ++ [CallMkdirAll (mount_path p options) 0x1ff%N].

(** The calls of a [Delete] of the volume [v] that runs to its end, from
    the world [w]. *)
Definition teardown_plan (c : Client) (p : isilonProvisioner) (v : string)
    (w : World c) : list Call :=
  (if quotaEnable p
   then CallGetQuota v :: (if quota_found c v w then [CallClearQuota v] else [])
   else [])
  ++ (if exportsEnable p then [CallUnexport v] else [])
  ++ [CallDeleteVolume v].

(** The first key, in the order of [entries], that the parameter loop
    does not know. *)
Definition first_unknown (ToLower : string → string)
    (entries : list (string * string)) : option string :=
  head (filter (λ k, ToLower k ≠ "mountoptions") entries.*1).

(** The mount options after the loop: those of the entry visited last. *)
Definition mount_options_of (entries : list (string * string)) : list string :=
  match last entries with
  | Some (_, v) => strings.Split v ","%char
  | None => []
  end.

(** The record [Provision] assembles (lines 139-162). *)
Definition assembled (p : isilonProvisioner) (options : VolumeOptions)
    (mountOptions : list string) : PersistentVolume := {|
  Name := PVName options;
  Annotations := {[ "isilonProvisionerIdentity" := identity p;
                    "isilonVolume" := pvName options ]};
  pv_ReclaimPolicy := PersistentVolumeReclaimPolicy options;
  AccessModes := pvc_AccessModes (PVC options);
  Capacity := {[ ResourceStorage := capacity options ]};
  MountOptions := mountOptions;
  NFS := Some {| Server := serverName p;
                 Path := mount_path p options;
                 ReadOnly := false |};
|}.

(** No field of the volume's name holds a slash. *)
Definition slash_free (options : VolumeOptions) : Prop :=
  mentions "/" (pvc_Namespace (PVC options)) = false
  ∧ mentions "/" (pvc_Name (PVC options)) = false
  ∧ mentions "/" (PVName options) = false.

(** The three errors [Delete] returns. *)
Definition tag_missing : error :=
  errors_New "identity annotation not found on PV".
Definition tag_foreign : error :=
  IgnoredError "identity annotation on PV does not match ours".
Definition volume_unnamed : error :=
  IgnoredError "No isilon volume defined".

(** A host on which everything is in place. *)
Definition environment : gmap string string :=
  {[ "ISI_SERVER" := "isilon.example.com";
     "ISI_PATH" := "/ifs/data/k8s";
     "ISI_USER" := "k8s";
     "ISI_PASS" := "secret";
     "ISI_QUOTA_ENABLE" := "true" ]}.

Definition host (env : gmap string string) (connected : result Client) : Host := {|
  Config := unit;
  Clientset := unit;
  flag_Parse := None;
  InClusterConfig := Ok ();
  NewForConfig _ := Ok ();
  ServerVersion _ := Ok {| GitVersion := "v1.10.0" |};
  environ := env;
  NewClientWithArgs _ _ _ _ _ _ _ := connected;
|}.

Definition mkdir_fails : Script := {|
  on_CreateVolume := None;
  on_SetQuotaSize := None;
  on_GetQuota := (None, None);
  on_ClearQuota := None;
  on_ExportVolume := None;
  on_Unexport := None;
  on_DeleteVolume := None;
  on_MkdirAll := Some (foreign_error "read-only file system");
|}.

(** The controller [main] runs on that host. *)
Definition in_service : ProvisionController unit := {|
  pc_client := ();
  pc_provisionerName := "example.com/isilon";
  pc_provisioner := provisioner true false;
  pc_isiClient := scripted all_fine;
  pc_serverVersion := "v1.10.0";
|}.

(** ** Tactics *)

Ltac unfold_monad :=
  unfold run, mbind, M_bind, mret, M_ret, call, return_, panic in *.

(** Closes [c ∉ t] for a trace [t] that is written out and does not hold [c]. *)
Ltac not_in_trace :=
  let Hin := fresh "Hin" in
  intros Hin;
  repeat (apply elem_of_cons in Hin as [Hin|Hin]; [discriminate Hin|]);
  by apply elem_of_nil in Hin.

Ltac run_body :=
  unfold_monad; simpl in *;
  repeat first
    [ progress simplify_eq/=
    | case_decide
    | case_match ].

Ltac run_main :=
  unfold main, cluster_up, settings_given, connection, access_path in *;
  repeat first
    [ progress simplify_eq/=
    | progress destruct_and?
    | match goal with H : ∃ _, _ |- _ => destruct H end
    | case_decide
    | case_match ].

(** ** Facts about the library functions *)

Example Join_example :
  path.Join ["/ifs//data/./x/.."; "vol"] = "/ifs/data/vol"
  ∧ path.Join ["a/../.."; "vol"] = "../vol"
  ∧ path.Join [""; "vol"] = "vol"
  ∧ path.Join ["/.."; "vol"] = "/vol"
  ∧ path.Join ["/ifs/"; ""] = "/ifs"
  ∧ strings.Split "a,b,,c" ","%char = ["a"; "b"; ""; "c"]
  ∧ strings.Join ["team-a"; "claim1"; "pv-0001"] "-" = "team-a-claim1-pv-0001"
  ∧ strings.ToLowerASCII "MountOptions" = "mountoptions".
Proof. repeat split; vm_compute; reflexivity. Qed.

(** A string as the list of its bytes. *)
Lemma bytes_app (s t : string) :
  String.list_ascii_of_string (s +:+ t)
  = String.list_ascii_of_string s ++ String.list_ascii_of_string t.
Proof. induction s as [|a s IH]; simpl; [done|]. by rewrite IH. Qed.

Lemma of_bytes_app (l k : list ascii) :
  String.string_of_list_ascii (l ++ k)
  = String.string_of_list_ascii l +:+ String.string_of_list_ascii k.
Proof. induction l as [|a l IH]; simpl; [done|]. by rewrite IH. Qed.

Lemma bytes_inj (s t : string) :
  String.list_ascii_of_string s = String.list_ascii_of_string t → s = t.
Proof.
  intros Heq.
  rewrite <- (String.string_of_list_ascii_of_string s),
          <- (String.string_of_list_ascii_of_string t).
  by rewrite Heq.
Qed.

Lemma append_inv_tail (s1 s2 t : string) : s1 +:+ t = s2 +:+ t → s1 = s2.
Proof.
  intros Heq. apply bytes_inj.
  apply (f_equal String.list_ascii_of_string) in Heq.
  rewrite !bytes_app in Heq. by apply app_inv_tail in Heq.
Qed.

(** Two strings cut at their first [a] are equal only piece by piece. *)
Lemma cut_at_first (a : ascii) (s1 s2 r1 r2 : string) :
  mentions a s1 = false →
  mentions a s2 = false →
  s1 +:+ String a r1 = s2 +:+ String a r2 →
  s1 = s2 ∧ r1 = r2.
Proof.
  revert s2. induction s1 as [|b s1 IH]; intros [|b' s2]; simpl;
    intros H1 H2 Heq.
  - by injection Heq.
  - injection Heq as <- _. apply orb_false_elim in H2 as [H2 _].
    by apply bool_decide_eq_false in H2.
  - injection Heq as -> _. apply orb_false_elim in H1 as [H1 _].
    by apply bool_decide_eq_false in H1.
  - injection Heq as -> Heq.
    apply orb_false_elim in H1 as [_ H1].
    apply orb_false_elim in H2 as [_ H2].
    destruct (IH s2 H1 H2 Heq) as [-> ->]. done.
Qed.

Section PathFacts.

Import path.

(** The copying loop takes every byte up to the next slash. *)
Lemma scan_copy (rooted : bool) (l out : list ascii) (dotdot : nat) :
  slash ∉ l → scan rooted l true out dotdot = rev l ++ out.
Proof.
  revert out. induction l as [|c l IH]; intros out Hl; [done|].
  apply not_elem_of_cons in Hl as [Hc Hl]. simpl.
  case_decide; [done|]. rewrite IH by done. by rewrite <- app_assoc.
Qed.

(** At the start of an element, a real element is copied whole. *)
Lemma scan_plain (rooted : bool) (name out : list ascii) (dotdot : nat) :
  plain_element name →
  ∃ out', scan rooted name false out dotdot = rev name ++ out'.
Proof.
  intros (Hne & Hslash & Hdot & Hdotdot).
  destruct name as [|c name]; [done|].
  apply not_elem_of_cons in Hslash as [Hc Hslash].
  assert (∀ out1, ∃ out',
            scan rooted name true (c :: out1) dotdot = rev (c :: name) ++ out')
    as Hcopy.
  { intros out1. exists out1. rewrite scan_copy by done.
    simpl. by rewrite <- app_assoc. }
  simpl scan. case_decide; [done|].
  case_decide as Hcdot; [|apply Hcopy].
  destruct name as [|c1 name]; [by subst|].
  apply not_elem_of_cons in Hslash as [Hc1 Hslash].
  case_decide; [done|].
  case_decide as Hdd; [|apply Hcopy].
  destruct Hdd as [-> [->|Hhead]]; [by subst|].
  destruct name as [|c2 name]; [done|].
  injection Hhead as ->. exfalso. apply Hslash. by left.
Qed.

(** Whatever comes before its slash, a real element at the end of the path
    is the last thing written. *)
Lemma scan_last_element (rooted : bool) (name : list ascii) :
  plain_element name →
  ∀ (n : nat) (pre : list ascii) (copying : bool) (out : list ascii)
    (dotdot : nat),
    (length pre ≤ n)%nat →
    ∃ out', scan rooted (pre ++ slash :: name) copying out dotdot
            = rev name ++ out'.
Proof.
  intros Hname n. induction n as [|n IH]; intros pre copying out dotdot Hlen.
  - destruct pre; [|simpl in Hlen; lia].
    destruct copying; simpl; by apply scan_plain.
  - destruct pre as [|c pre].
    { destruct copying; simpl; by apply scan_plain. }
    simpl in Hlen.
    destruct copying; simpl scan.
    { case_decide; apply IH; lia. }
    case_decide; [apply IH; lia|].
    case_decide; [|apply (IH pre true); lia].
    destruct pre as [|c1 pre]; simpl app; cbv iota.
    { case_decide; [|done]. apply (IH [] false). simpl. lia. }
    simpl in Hlen.
    case_decide; [apply (IH (c1 :: pre) false); simpl; lia|].
    case_decide; [|apply (IH (c1 :: pre) true); simpl; lia].
    destruct rooted; repeat case_decide; simpl negb; cbv iota; apply IH; lia.
Qed.

(** The end of [Clean], when the buffer ends in the element [name]. *)
Lemma Clean_result (name out' : list ascii) :
  name ≠ [] →
  match rev name ++ out' with
  | [] => "."
  | _ => String.string_of_list_ascii (rev (rev name ++ out'))
  end
  = String.string_of_list_ascii (rev out')
      +:+ String.string_of_list_ascii name.
Proof.
  intros Hne.
  assert (rev (rev name ++ out') = rev out' ++ name) as Hrev
    by (by rewrite rev_app_distr, rev_involutive).
  destruct (rev name ++ out') as [|c out] eqn:Hout.
  - apply app_eq_nil in Hout as [Hnil _].
    apply (f_equal (@rev ascii)) in Hnil. by rewrite rev_involutive in Hnil.
  - by rewrite Hrev, of_bytes_app.
Qed.

Lemma Clean_ends_with (root name : string) :
  plain_element (String.list_ascii_of_string name) →
  (∃ dir, Clean (root +:+ String slash name) = dir +:+ name)
  ∧ (∃ dir, Clean name = dir +:+ name).
Proof.
  intros Hname. pose proof Hname as (Hne & Hslash & _).
  assert (∀ out',
    ∃ dir, match rev (String.list_ascii_of_string name) ++ out' with
           | [] => "."
           | _ => String.string_of_list_ascii
                    (rev (rev (String.list_ascii_of_string name) ++ out'))
           end = dir +:+ name) as Hend.
  { intros out'. rewrite Clean_result by done.
    rewrite String.string_of_list_ascii_of_string. by eexists. }
  unfold Clean. rewrite bytes_app. simpl String.list_ascii_of_string.
  split.
  - destruct (String.list_ascii_of_string root) as [|c pre]; simpl app;
      cbv beta iota zeta.
    + case_decide; [|done].
      destruct (scan_plain true _ [slash] 1 Hname) as [out' ->].
      apply Hend.
    + case_decide.
      * destruct (scan_last_element true _ Hname _ pre false [slash] 1%nat
                    (le_n _)) as [out' ->].
        apply Hend.
      * destruct (scan_last_element false _ Hname _ (c :: pre) false [] 0%nat
                    (le_n _)) as [out' Hscan].
        simpl app in Hscan. rewrite Hscan. apply Hend.
  - destruct (scan_plain false _ [] 0 Hname) as [out' Hscan].
    destruct (String.list_ascii_of_string name) as [|c l] eqn:Hbytes; [done|].
    apply not_elem_of_cons in Hslash as [Hc _].
    case_decide; [by subst|].
    rewrite Hscan. apply Hend.
Qed.

(** The directory of a volume ends in the name of the volume, whatever
    the configured root is. *)
Lemma Join_ends_with (root name : string) :
  plain_element (String.list_ascii_of_string name) →
  ∃ dir, Join [root; name] = dir +:+ name.
Proof.
  intros Hname.
  destruct (Clean_ends_with root name Hname) as [Hrooted Hbare].
  assert (∀ r : string, (r +:+ "/") +:+ name = r +:+ String slash name)
    as Hslash.
  { induction r as [|b r IH]; [reflexivity|].
    change (String b ((r +:+ "/") +:+ name)
            = String b (r +:+ String slash name)).
    by f_equal. }
  unfold Join. simpl foldl. simpl sum_list.
  destruct name as [|a name]; [by destruct Hname|].
  case_decide as Hsize; [simpl in Hsize; lia|].
  destruct root as [|b root]; unfold join_step.
  - repeat (case_decide; destruct_and?; simplify_eq/=); done.
  - repeat (case_decide; destruct_and?; simplify_eq/=).
    by rewrite Hslash.
Qed.

End PathFacts.

(** ** The name of the backend volume *)

Lemma pvName_unfold (options : VolumeOptions) :
  pvName options
  = pvc_Namespace (PVC options)
      +:+ String "-" (pvc_Name (PVC options) +:+ String "-" (PVName options)).
Proof. reflexivity. Qed.

Lemma bytes_length (s : string) :
  length (String.list_ascii_of_string s) = String.length s.
Proof. induction s as [|a s IH]; simpl; [done|]. by rewrite IH. Qed.

(** Names that agree agree on target names of the same length. *)
Lemma pvName_same_length (o1 o2 : VolumeOptions) :
  String.length (PVName o1) = String.length (PVName o2) →
  pvName o1 = pvName o2 → PVName o1 = PVName o2.
Proof.
  intros Hlen Heq. rewrite !pvName_unfold in Heq.
  apply (f_equal String.list_ascii_of_string) in Heq.
  rewrite !bytes_app in Heq. simpl in Heq. rewrite !bytes_app in Heq.
  simpl in Heq.
  assert (∀ (d : ascii) (l1 l2 l3 : list ascii),
            l1 ++ d :: l2 ++ d :: l3 = (l1 ++ d :: l2 ++ [d]) ++ l3) as Hshape.
  { intros d l1 l2 l3. rewrite <- app_assoc. simpl. by rewrite <- app_assoc. }
  rewrite (Hshape _ _ _ (String.list_ascii_of_string (PVName o1))),
          (Hshape _ _ _ (String.list_ascii_of_string (PVName o2))) in Heq.
  apply app_inj_2 in Heq as [_ Heq]; [by apply bytes_inj|].
  by rewrite !bytes_length.
Qed.

(** C7, as the code has it: the name of the backend volume is a function
    of the three fields.  Requests with different fields get different
    names when no namespace and no claim name holds the separator [-],
    and also when the requests differ in one field only; and requests
    whose target names differ and are equally long get different names. *)
Theorem pvName_deterministic_injective (o1 o2 : VolumeOptions) :
  (same_fields o1 o2 → pvName o1 = pvName o2)
  ∧ (dashless o1 → dashless o2 → pvName o1 = pvName o2 → same_fields o1 o2)
  ∧ ((pvc_Namespace (PVC o1) = pvc_Namespace (PVC o2)
      ∧ pvc_Name (PVC o1) = pvc_Name (PVC o2))
     ∨ (pvc_Namespace (PVC o1) = pvc_Namespace (PVC o2)
        ∧ PVName o1 = PVName o2)
     ∨ (pvc_Name (PVC o1) = pvc_Name (PVC o2) ∧ PVName o1 = PVName o2) →
     pvName o1 = pvName o2 → same_fields o1 o2)
  ∧ (String.length (PVName o1) = String.length (PVName o2) →
     pvName o1 = pvName o2 → PVName o1 = PVName o2).
Proof.
  split_and!; [| | |by apply pvName_same_length];
    rewrite !pvName_unfold; unfold same_fields, dashless.
  - by intros (-> & -> & ->).
  - intros [Hns1 Hn1] [Hns2 Hn2] Heq.
    apply cut_at_first in Heq as [Hns Heq]; [|done..].
    apply cut_at_first in Heq as [Hn Hpv]; done.
  - intros [[Hns Hn]|[[Hns Hpv]|[Hn Hpv]]] Heq.
    + rewrite Hns, Hn in Heq. apply (inj _) in Heq.
      injection Heq as Heq. by apply (inj _) in Heq as [= ->].
    + rewrite Hns, Hpv in Heq. apply (inj _) in Heq.
      injection Heq as Heq. by apply append_inv_tail in Heq.
    + rewrite Hn, Hpv in Heq. by apply append_inv_tail in Heq.
Qed.

Lemma pvName_deterministic_injective_witness :
  (pvName (request_named "teama" "claim1" "pv-0001")
   = pvName (request_named "teama" "claim1" "pv-0001"))
  ∧ (pvName (request_named "teama" "claim1" "pv-0001")
     ≠ pvName (request_named "teama" "claim2" "pv-0001"))
  ∧ (pvName (request_named "team-a" "claim1" "pv-0001")
     ≠ pvName (request_named "team-a" "claim1" "pv-0002"))
  ∧ (pvName (request_named "team-a" "claim1" "pv-0001")
     ≠ pvName (request_named "team" "a-claim2" "pv-0002")).
Proof.
  split_and!.
  - apply (proj1 (pvName_deterministic_injective
                    (request_named "teama" "claim1" "pv-0001")
                    (request_named "teama" "claim1" "pv-0001"))).
    by split_and!.
  - intros Heq.
    apply (proj1 (proj2 (pvName_deterministic_injective
                           (request_named "teama" "claim1" "pv-0001")
                           (request_named "teama" "claim2" "pv-0001"))))
      in Heq.
    + by destruct Heq as (_ & [=] & _).
    + by split.
    + by split.
  - intros Heq.
    apply (proj1 (proj2 (proj2 (pvName_deterministic_injective
                           (request_named "team-a" "claim1" "pv-0001")
                           (request_named "team-a" "claim1" "pv-0002")))))
      in Heq.
    + by destruct Heq as (_ & _ & [=]).
    + left. by split.
  - intros Heq.
    apply (proj2 (proj2 (proj2 (pvName_deterministic_injective
                           (request_named "team-a" "claim1" "pv-0001")
                           (request_named "team" "a-claim2" "pv-0002")))))
      in Heq.
    + discriminate Heq.
    + reflexivity.
Defined.

(** C7, as stated, fails: the separator may be part of a field, and then
    two different requests share a name. *)
Lemma pvName_collision :
  pvName (request_named "a-b" "c" "d") = pvName (request_named "a" "b-c" "d")
  ∧ ¬ same_fields (request_named "a-b" "c" "d") (request_named "a" "b-c" "d").
Proof. split; [reflexivity|]. by intros [[=] _]. Qed.

(** ** Deletion *)

(** C3, as the code has it: a record whose ownership tag differs from the
    provisioner's identity is turned down with an [IgnoredError]; a record
    with no ownership tag is turned down with a plain error, which the
    controller does not take for an ignorable one.  Either way [Delete]
    returns in the state it started from: no backend call is made. *)
Theorem Delete_foreign_record (c : Client) (p : isilonProvisioner)
    (volume : PersistentVolume) (s : State (World c)) :
  (Annotations volume !! "isilonProvisionerIdentity" = None →
   ∃ err, run (Delete c p volume) s = (Returned (Some err), s)
          ∧ err = errors_New "identity annotation not found on PV"
          ∧ is_ignored err = false)
  ∧ (∀ ann, Annotations volume !! "isilonProvisionerIdentity" = Some ann →
     ann ≠ identity p →
     ∃ err, run (Delete c p volume) s = (Returned (Some err), s)
            ∧ is_ignored err = true).
Proof.
  split.
  - intros Hnone. unfold Delete. rewrite Hnone. by eexists.
  - intros ann Hann Hne. unfold Delete. rewrite Hann.
    case_decide; [|done]. by eexists.
Qed.

Lemma Delete_foreign_record_witness :
  (∃ err, run (Delete (scripted all_fine) (provisioner true true) (record ∅))
              (start 0%nat) = (Returned (Some err), start 0%nat)
          ∧ err = errors_New "identity annotation not found on PV"
          ∧ is_ignored err = false)
  ∧ (∃ err, run (Delete (scripted all_fine) (provisioner true true)
                   (record {[ "isilonProvisionerIdentity" := "server-X" ]}))
                (start 0%nat) = (Returned (Some err), start 0%nat)
            ∧ is_ignored err = true).
Proof.
  split.
  - apply (Delete_foreign_record (scripted all_fine)). reflexivity.
  - apply (Delete_foreign_record (scripted all_fine) (provisioner true true)
             (record {[ "isilonProvisionerIdentity" := "server-X" ]})
             (start 0%nat)) with (ann := "server-X").
    + reflexivity.
    + discriminate.
Defined.

(** C3, as stated, fails: a record with no ownership tag gets an error
    that is not an ignorable one. *)
Lemma Delete_missing_tag_not_ignored :
  ¬ ∃ err,
      (run (Delete (scripted all_fine) (provisioner true true) (record ∅))
           (start 0%nat)).1 = Returned (Some err)
      ∧ is_ignored err = true.
Proof.
  intros (err & Hrun & Hign). vm_compute in Hrun.
  injection Hrun as <-. discriminate Hign.
Qed.

(** C2, as the code has it: on an owned record, with both policies on,
    the calls are [GetQuota], then [ClearQuota] when a quota was found,
    then [Unexport], then [DeleteVolume]: the quota goes before the
    export.  Each call is made in the world the call before it left.  The
    first of [ClearQuota], [Unexport] and [DeleteVolume] that reports an
    error ends the deletion in a panic, right after that call; when none
    does, [Delete] returns [nil] and has made the whole sequence. *)
Theorem Delete_teardown_order (c : Client) (p : isilonProvisioner)
    (volume : PersistentVolume) (v : string) (s : State (World c)) :
  owned p volume v →
  quotaEnable p = true →
  exportsEnable p = true →
  let found := quota_found c v (world s) in
  let w1 := (GetQuota c v (world s)).2 in
  let cleared := ClearQuota c v w1 in
  let w2 := if found then cleared.2 else w1 in
  let unexported := Unexport c v w2 in
  let deleted := DeleteVolume c v unexported.2 in
  let until_clear :=
    CallGetQuota v :: (if found then [CallClearQuota v] else []) in
  run (Delete c p volume) s
  = match (if found then cleared.1 else None) with
    | Some err =>
        (Panicked err, {| world := w2; calls := calls s ++ until_clear |})
    | None =>
        match unexported.1 with
        | Some err =>
            (Panicked err,
             {| world := unexported.2;
                calls := calls s ++ until_clear ++ [CallUnexport v] |})
        | None =>
            (match deleted.1 with
             | Some err => Panicked err
             | None => Returned None
             end,
             {| world := deleted.2;
                calls := calls s ++ full_teardown found v |})
        end
    end.
Proof.
  intros [Htag Hvol] Hquota Hexports. unfold Delete, quota_found, full_teardown.
  rewrite Htag, Hvol, Hquota, Hexports. case_decide; [done|].
  unfold_monad. simpl.
  destruct (GetQuota c v (world s)) as [[[quota|] dropped] w1]; simpl.
  - destruct (ClearQuota c v w1) as [[err|] w2]; simpl;
      [by rewrite <- ?app_assoc|].
    destruct (Unexport c v w2) as [[err|] w3]; simpl;
      [by rewrite <- ?app_assoc|].
    destruct (DeleteVolume c v w3) as [[err|] w4]; simpl;
      by rewrite <- ?app_assoc.
  - destruct (Unexport c v w1) as [[err|] w3]; simpl;
      [by rewrite <- ?app_assoc|].
    destruct (DeleteVolume c v w3) as [[err|] w4]; simpl;
      by rewrite <- ?app_assoc.
Qed.

Lemma Delete_teardown_order_witness :
  run (Delete (scripted all_fine) (provisioner true true) owned_record)
      (start 0%nat)
  = (Returned None,
     {| world := 4%nat;
        calls := [CallGetQuota "team-a-claim1-pv-0001";
                  CallClearQuota "team-a-claim1-pv-0001";
                  CallUnexport "team-a-claim1-pv-0001";
                  CallDeleteVolume "team-a-claim1-pv-0001"] |}).
Proof.
  rewrite (Delete_teardown_order (scripted all_fine) (provisioner true true)
             owned_record "team-a-claim1-pv-0001" (start 0%nat)).
  - reflexivity.
  - split; reflexivity.
  - reflexivity.
  - reflexivity.
Defined.

(** C2, as stated, fails: with both policies on and a quota on the
    volume, the quota is cleared before the export is removed. *)
Lemma Delete_clears_quota_before_unexport :
  teardown_calls
    (calls (run (Delete (scripted all_fine) (provisioner true true)
                   owned_record) (start 0%nat)).2)
  = [CallClearQuota "team-a-claim1-pv-0001";
     CallUnexport "team-a-claim1-pv-0001";
     CallDeleteVolume "team-a-claim1-pv-0001"]
  ∧ teardown_calls
      (calls (run (Delete (scripted all_fine) (provisioner true true)
                     owned_record) (start 0%nat)).2)
    ≠ [CallUnexport "team-a-claim1-pv-0001";
       CallClearQuota "team-a-claim1-pv-0001";
       CallDeleteVolume "team-a-claim1-pv-0001"].
Proof. split; [by vm_compute | by vm_compute]. Qed.

(** C10, as the code has it: on an owned record, with the quota policy
    on, an error from [GetQuota] is dropped: [Delete] does what it does
    with a client whose [GetQuota] gives the same answer without the
    error.  What decides is the quota beside the error.  When there is
    none, the deletion goes on from the state that call left as one with
    no quota handling does: [ClearQuota] is not called, the next call is
    [Unexport] (or [DeleteVolume], with exports off), and a deletion that
    returns has called [DeleteVolume] last.  When there is one,
    [ClearQuota] is the next call. *)
Theorem Delete_GetQuota_error_discarded (c : Client) (p : isilonProvisioner)
    (volume : PersistentVolume) (v : string) (s : State (World c))
    (quota : option (Quota c)) (err : error) (w1 : World c) :
  owned p volume v →
  quotaEnable p = true →
  GetQuota c v (world s) = ((quota, Some err), w1) →
  let s1 := {| world := w1; calls := calls s ++ [CallGetQuota v] |} in
  run (Delete c p volume) s = run (Delete (GetQuota_silent c) p volume) s
  ∧ (quota = None →
     run (Delete c p volume) s = run (Delete c (without_quota p) volume) s1
     ∧ (∃ t, calls (run (Delete c p volume) s).2
             = calls s ++ CallGetQuota v :: t
             ∧ (CallClearQuota v ∉ t)
             ∧ head t = Some (if exportsEnable p then CallUnexport v
                              else CallDeleteVolume v)
             ∧ (∀ e, (run (Delete c p volume) s).1 = Returned e →
                  e = None ∧ last t = Some (CallDeleteVolume v))))
  ∧ (is_Some quota →
     ∃ t, calls (run (Delete c p volume) s).2
          = calls s ++ CallGetQuota v :: CallClearQuota v :: t).
Proof.
  intros [Htag Hvol] Hquota Hget s1. subst s1. split_and!.
  - unfold Delete. simpl. rewrite Htag, Hvol, Hquota. case_decide; [done|].
    unfold_monad. simpl. by rewrite Hget.
  - intros ->. unfold Delete. simpl.
    rewrite Htag, Hvol, Hquota. case_decide; [done|].
    unfold_monad. simpl. rewrite Hget. simpl. split; [reflexivity|].
    destruct (exportsEnable p); run_body; rewrite <- ?app_assoc; simpl;
      eexists; (split; [reflexivity|]);
      (split; [not_in_trace|]); (split; [done|]); by intros ? [=].
  - intros [q ->]. unfold Delete. simpl.
    rewrite Htag, Hvol, Hquota. case_decide; [done|].
    unfold_monad. simpl. rewrite Hget. simpl.
    run_body; rewrite <- ?app_assoc; simpl; by eexists.
Qed.

Lemma Delete_GetQuota_error_discarded_witness :
  run (Delete (scripted quota_not_found) (provisioner true true) owned_record)
      (start 0%nat)
  = (Returned None,
     {| world := 3%nat;
        calls := [CallGetQuota "team-a-claim1-pv-0001";
                  CallUnexport "team-a-claim1-pv-0001";
                  CallDeleteVolume "team-a-claim1-pv-0001"] |}).
Proof.
  destruct (Delete_GetQuota_error_discarded (scripted quota_not_found)
              (provisioner true true) owned_record "team-a-claim1-pv-0001"
              (start 0%nat) None (foreign_error "Quota not found") 1%nat)
    as (_ & Habsent & _).
  - split; reflexivity.
  - reflexivity.
  - reflexivity.
  - destruct (Habsent eq_refl) as [-> _]. reflexivity.
Defined.

(** C10, as stated, fails: on an owned record, with the quota policy on,
    when [GetQuota] gives a quota beside its error, the error is dropped
    all the same, and the quota is cleared. *)
Lemma Delete_clears_quota_beside_error :
  owned (provisioner true true) owned_record "team-a-claim1-pv-0001"
  ∧ (GetQuota (scripted quota_and_error) "team-a-claim1-pv-0001" 0%nat).1.2
    = Some (foreign_error "stale session")
  ∧ run (Delete (scripted quota_and_error) (provisioner true true)
           owned_record) (start 0%nat)
    = (Returned None,
       {| world := 4%nat;
          calls := [CallGetQuota "team-a-claim1-pv-0001";
                    CallClearQuota "team-a-claim1-pv-0001";
                    CallUnexport "team-a-claim1-pv-0001";
                    CallDeleteVolume "team-a-claim1-pv-0001"] |}).
Proof. split_and!; [split| |]; reflexivity. Qed.

(** ** Provisioning *)

Section ProvisionFacts.

Variable ToLower : string → string.
Variable isiClient : Client.

Local Abbreviation W := (World isiClient).

(** The loop over the parameters makes no call.  It ends in the parameter
    error of the first key it does not know, if there is one. *)
Lemma range_Parameters_unknown (entries : list (string * string)) :
  Exists (λ kv, ToLower kv.1 ≠ "mountoptions") entries →
  ∃ k, k ∈ entries.*1 ∧ ToLower k ≠ "mountoptions"
       ∧ ∀ mountOptions,
           range_Parameters ToLower isiClient entries mountOptions
           = return_ (Err (invalid_parameter k)).
Proof.
  induction entries as [|[k v] entries IH]; intros Hex.
  - by apply Exists_nil in Hex.
  - destruct (decide (ToLower k = "mountoptions")) as [Hk|Hk].
    + apply Exists_cons in Hex as [Hex|Hex]; [done|].
      destruct (IH Hex) as (k' & Hin & Hk' & Hloop).
      exists k'. split_and!; [by right|done|].
      intros mountOptions. simpl. by case_decide.
    + exists k. split_and!; [by left|done|].
      intros mountOptions. simpl. by case_decide.
Qed.

(** Over keys it knows, the loop goes on to the next statement. *)
Lemma range_Parameters_known (entries : list (string * string))
    (mountOptions : list string) :
  Forall (λ kv, ToLower kv.1 = "mountoptions") entries →
  ∃ mountOptions',
    range_Parameters ToLower isiClient entries mountOptions
    = mret mountOptions'.
Proof.
  intros Hall. revert mountOptions.
  induction entries as [|[k v] entries IH]; intros mountOptions.
  - by eexists.
  - apply Forall_cons in Hall as [Hk Hall]. simpl in *.
    case_decide; [|done]. apply (IH Hall).
Qed.

(** The loop ends in one of these two ways. *)
Lemma range_Parameters_cases (entries : list (string * string))
    (mountOptions : list string) :
  (∃ mountOptions',
     range_Parameters ToLower isiClient entries mountOptions
     = mret mountOptions')
  ∨ (∃ k, range_Parameters ToLower isiClient entries mountOptions
          = return_ (Err (invalid_parameter k))).
Proof.
  destruct (decide (Forall (λ kv, ToLower kv.1 = "mountoptions") entries))
    as [Hall|Hex].
  - left. by apply range_Parameters_known.
  - right. apply not_Forall_Exists in Hex; [|solve_decision].
    destruct (range_Parameters_unknown entries Hex) as (k & _ & _ & Hloop).
    by exists k.
Qed.

(** [Provision] makes no teardown call. *)
Lemma Provision_no_teardown (p : isilonProvisioner) (options : VolumeOptions)
    (entries : list (string * string)) (s : State W) :
  ∃ t, calls (run (Provision ToLower isiClient p options entries) s).2
       = calls s ++ t
       ∧ teardown_calls t = [].
Proof.
  unfold Provision.
  destruct (range_Parameters_cases entries []) as [[mo ->]|[k ->]];
    run_body; rewrite <- ?app_assoc; simpl;
    first [ by eexists | by exists []; rewrite app_nil_r ].
Qed.

End ProvisionFacts.

(** C1, what the code does: a failure of [ExportVolume] in [Provision],
    and one of [ClearQuota], [Unexport] or [DeleteVolume] in [Delete], is
    not returned to the caller: the method panics with it.  An error that
    [Delete] does return is never such a failure: it returns one only
    before its first call. *)
Theorem backend_failure_panics (ToLower : string → string) (c : Client)
    (p : isilonProvisioner) (err : error) :
  (∀ options entries (s : State (World c)) vol w1 w3,
     exportsEnable p = true →
     (quotaEnable p = true → 0 < pvcSize options) →
     CreateVolume c (pvName options) (world s) = (Ok vol, w1) →
     let w2 :=
       if quotaEnable p
       then (SetQuotaSize c (pvName options) (pvcSize options) w1).2
       else w1 in
     ExportVolume c (pvName options) w2 = (Err err, w3) →
     run (Provision ToLower c p options entries) s
     = (Panicked err,
        {| world := w3;
           calls := calls s
             ++ [CallCreateVolume (pvName options)]
             ++ (if quotaEnable p
                 then [CallSetQuotaSize (pvName options) (pvcSize options)]
                 else [])
             ++ [CallExportVolume (pvName options)] |}))
  ∧ (∀ volume v (s : State (World c)) q dropped w1 w2,
       owned p volume v →
       quotaEnable p = true →
       GetQuota c v (world s) = ((Some q, dropped), w1) →
       ClearQuota c v w1 = (Some err, w2) →
       run (Delete c p volume) s
       = (Panicked err,
          {| world := w2;
             calls := calls s ++ [CallGetQuota v; CallClearQuota v] |}))
  ∧ (∀ volume v (s : State (World c)) w1,
       owned p volume v →
       quotaEnable p = false →
       exportsEnable p = true →
       Unexport c v (world s) = (Some err, w1) →
       run (Delete c p volume) s
       = (Panicked err,
          {| world := w1; calls := calls s ++ [CallUnexport v] |}))
  ∧ (∀ volume v (s : State (World c)) w1,
       owned p volume v →
       quotaEnable p = false →
       exportsEnable p = false →
       DeleteVolume c v (world s) = (Some err, w1) →
       run (Delete c p volume) s
       = (Panicked err,
          {| world := w1; calls := calls s ++ [CallDeleteVolume v] |}))
  ∧ (∀ volume (s : State (World c)) err',
       (run (Delete c p volume) s).1 = Returned (Some err') →
       (run (Delete c p volume) s).2 = s).
Proof.
  split_and!.
  - intros options entries s vol w1 w3 Hexports Hsize Hcreate w2 Hexport.
    subst w2. unfold Provision, pvName, pvcSize in *. rewrite Hexports.
    unfold_monad. simpl. rewrite Hcreate. simpl.
    destruct (quotaEnable p); simpl.
    + case_decide; [specialize (Hsize eq_refl); lia|]. simpl.
      destruct (SetQuotaSize c _ _ w1) as [rc w2]. simpl in *.
      rewrite Hexport. simpl. by rewrite <- !app_assoc.
    + rewrite Hexport. simpl. by rewrite <- !app_assoc.
  - intros volume v s q dropped w1 w2 [Htag Hvol] Hquota Hget Hclear.
    unfold Delete. rewrite Htag, Hvol, Hquota. case_decide; [done|].
    unfold_monad. simpl. rewrite Hget. simpl. rewrite Hclear. simpl.
    by rewrite <- app_assoc.
  - intros volume v s w1 [Htag Hvol] Hquota Hexports Hunexport.
    unfold Delete. rewrite Htag, Hvol, Hquota, Hexports. case_decide; [done|].
    unfold_monad. simpl. by rewrite Hunexport.
  - intros volume v s w1 [Htag Hvol] Hquota Hexports Hdelete.
    unfold Delete. rewrite Htag, Hvol, Hquota, Hexports. case_decide; [done|].
    unfold_monad. simpl. by rewrite Hdelete.
  - intros volume s err'. unfold Delete. by run_body.
Qed.

Lemma backend_failure_panics_witness :
  run (Provision strings.ToLowerASCII (scripted export_fails)
         (provisioner false true) (request 0 ∅) []) (start 0%nat)
  = (Panicked (foreign_error "export failed"),
     {| world := 2%nat;
        calls := [CallCreateVolume "team-a-claim1-pv-0001";
                  CallExportVolume "team-a-claim1-pv-0001"] |}).
Proof.
  apply (proj1 (backend_failure_panics strings.ToLowerASCII
                  (scripted export_fails) (provisioner false true)
                  (foreign_error "export failed")))
    with (vol := "team-a-claim1-pv-0001") (w1 := 1%nat);
    [reflexivity|discriminate|reflexivity|reflexivity].
Defined.

(** C4, as the code has it: with the quota policy on and no size asked
    for, [Provision] calls [CreateVolume] and nothing else, so never
    [SetQuotaSize], and returns an error: the policy violation when the
    volume was created, the error of [CreateVolume] when it was not. *)
Theorem Provision_quota_without_size (ToLower : string → string) (c : Client)
    (p : isilonProvisioner) (options : VolumeOptions)
    (entries : list (string * string)) (s : State (World c)) :
  quotaEnable p = true →
  pvcSize options = 0 →
  let created := CreateVolume c (pvName options) (world s) in
  run (Provision ToLower c p options entries) s
  = (Returned (Err (match created.1 with
                    | Ok _ => policy_violation
                    | Err err => err
                    end)),
     {| world := created.2;
        calls := calls s ++ [CallCreateVolume (pvName options)] |})
  ∧ (∀ name size,
       CallSetQuotaSize name size ∉ [CallCreateVolume (pvName options)]).
Proof.
  intros Hquota Hsize created. subst created.
  split; [|intros; not_in_trace].
  unfold Provision, pvName, pvcSize in *. rewrite Hquota, Hsize.
  unfold_monad. simpl.
  destruct (CreateVolume c _ (world s)) as [[vol|err] w1]; simpl; [|done].
  by try case_decide.
Qed.

Lemma Provision_quota_without_size_witness :
  run (Provision strings.ToLowerASCII (scripted all_fine)
         (provisioner true true) (request 0 ∅) []) (start 0%nat)
  = (Returned (Err policy_violation),
     {| world := 1%nat;
        calls := [CallCreateVolume "team-a-claim1-pv-0001"] |}).
Proof.
  apply (Provision_quota_without_size strings.ToLowerASCII (scripted all_fine)
           (provisioner true true) (request 0 ∅) [] (start 0%nat));
    reflexivity.
Defined.

(** C4, as stated, fails: when [CreateVolume] fails, the error returned is
    that failure and not the policy violation. *)
Lemma Provision_quota_without_size_create_fails :
  (run (Provision strings.ToLowerASCII (scripted create_fails)
          (provisioner true true) (request 0 ∅) []) (start 0%nat)).1
  = Returned (Err (foreign_error "create failed"))
  ∧ foreign_error "create failed" ≠ policy_violation.
Proof. split; [by vm_compute | discriminate]. Qed.

(** C5: with the quota policy on and a size asked for, a failure of
    [SetQuotaSize] is not passed on.  [Provision] does what it does with a
    client whose [SetQuotaSize] reports no error; and when the export (if
    enabled) and the directory succeed and every parameter is known, it
    returns a record, though no quota was set. *)
Theorem Provision_SetQuotaSize_failure_dropped (ToLower : string → string)
    (c : Client) (p : isilonProvisioner) (options : VolumeOptions)
    (entries : list (string * string)) (s : State (World c))
    (vol : Volume c) (err : error) (w1 w2 : World c) :
  quotaEnable p = true →
  0 < pvcSize options →
  CreateVolume c (pvName options) (world s) = (Ok vol, w1) →
  SetQuotaSize c (pvName options) (pvcSize options) w1 = (Some err, w2) →
  run (Provision ToLower c p options entries) s
  = run (Provision ToLower (SetQuotaSize_unfailing c) p options entries) s
  ∧ (∀ w4,
       let exported := ExportVolume c (pvName options) w2 in
       let w3 := if exportsEnable p then exported.2 else w2 in
       (exportsEnable p = true → ∃ handle, exported.1 = Ok handle) →
       MkdirAll c (mount_path p options) 0x1ff%N w3 = (None, w4) →
       Forall (λ kv, ToLower kv.1 = "mountoptions") entries →
       ∃ pv, run (Provision ToLower c p options entries) s
             = (Returned (Ok pv),
                {| world := w4;
                   calls := calls s
                     ++ [CallCreateVolume (pvName options);
                         CallSetQuotaSize (pvName options) (pvcSize options)]
                     ++ (if exportsEnable p
                         then [CallExportVolume (pvName options)] else [])
                     ++ [CallMkdirAll (mount_path p options) 0x1ff%N] |})).
Proof.
  intros Hquota Hsize Hcreate Hset. split.
  - unfold Provision, pvName, pvcSize in *. rewrite Hquota.
    unfold_monad. simpl. rewrite Hcreate. simpl.
    case_decide; [lia|]. simpl. by rewrite Hset.
  - intros w4 exported w3 Hexport Hmkdir Hknown. subst exported w3.
    destruct (range_Parameters_known ToLower c entries [] Hknown)
      as [mountOptions Hloop].
    unfold Provision, mount_path, pvName, pvcSize in *. rewrite Hquota.
    unfold_monad. simpl. rewrite Hcreate. simpl.
    case_decide; [lia|]. simpl. rewrite Hset. simpl.
    destruct (exportsEnable p); simpl in *.
    + destruct Hexport as [handle Hexport]; [done|].
      destruct (ExportVolume c _ w2) as [rc w3]. simpl in *. subst rc. simpl.
      rewrite Hmkdir, Hloop. simpl.
      rewrite <- !app_assoc. by eexists.
    + rewrite Hmkdir, Hloop. simpl.
      rewrite <- !app_assoc. by eexists.
Qed.

Lemma Provision_SetQuotaSize_failure_dropped_witness :
  ∃ pv, run (Provision strings.ToLowerASCII (scripted quota_fails)
               (provisioner true true) (request 1073741824 ∅) [])
            (start 0%nat)
        = (Returned (Ok pv),
           {| world := 4%nat;
              calls := [CallCreateVolume "team-a-claim1-pv-0001";
                        CallSetQuotaSize "team-a-claim1-pv-0001" 1073741824;
                        CallExportVolume "team-a-claim1-pv-0001";
                        CallMkdirAll "/ifs/data/k8s/team-a-claim1-pv-0001"
                                     0x1ff%N] |}).
Proof.
  apply (proj2 (Provision_SetQuotaSize_failure_dropped strings.ToLowerASCII
                  (scripted quota_fails) (provisioner true true)
                  (request 1073741824 ∅) [] (start 0%nat)
                  "team-a-claim1-pv-0001" (foreign_error "quota refused")
                  1%nat 2%nat eq_refl eq_refl eq_refl eq_refl) 4%nat).
  - intros _. by exists 1.
  - reflexivity.
  - constructor.
Defined.

(** C6, as the code has it: a request with a parameter whose lower-cased
    key is not [mountoptions] never gets a record, and [Provision] makes
    no teardown call for it: the volume it created stays.  When the steps
    before the parameter check go through, that is when the request with
    no parameter at all would succeed, the request fails with the
    parameter error of a key the code does not know, from the same state,
    whatever the quota and export policies are. *)
Theorem Provision_unknown_parameter (ToLower : string → string) (c : Client)
    (p : isilonProvisioner) (options : VolumeOptions)
    (entries : list (string * string)) (s : State (World c)) (k v : string) :
  visits options entries →
  Parameters options !! k = Some v →
  ToLower k ≠ "mountoptions" →
  (∀ pv, (run (Provision ToLower c p options entries) s).1 ≠ Returned (Ok pv))
  ∧ (∀ pv s',
       run (Provision ToLower c p options []) s = (Returned (Ok pv), s') →
       ∃ k', is_Some (Parameters options !! k')
             ∧ ToLower k' ≠ "mountoptions"
             ∧ run (Provision ToLower c p options entries) s
               = (Returned (Err (invalid_parameter k')), s'))
  ∧ (∃ t, calls (run (Provision ToLower c p options entries) s).2
          = calls s ++ t
          ∧ teardown_calls t = []).
Proof.
  intros Hvisits Hk Hunknown.
  assert (Exists (λ kv, ToLower kv.1 ≠ "mountoptions") entries) as Hex.
  { apply Exists_exists. exists (k, v). split; [|done].
    rewrite Hvisits. by apply elem_of_map_to_list. }
  destruct (range_Parameters_unknown ToLower c entries Hex)
    as (k' & Hin & Hk' & Hloop).
  assert (is_Some (Parameters options !! k')) as Hsome.
  { apply list_elem_of_fmap in Hin as ([k0 v'] & -> & Hin).
    rewrite Hvisits in Hin. apply elem_of_map_to_list in Hin. by eexists. }
  split_and!.
  - intros pv. unfold Provision. rewrite Hloop. by run_body.
  - intros pv s'. unfold Provision. rewrite Hloop. simpl.
    intros Hrun. exists k'. split_and!; [done..|].
    by run_body.
  - apply Provision_no_teardown.
Qed.

Lemma Provision_unknown_parameter_witness :
  run (Provision strings.ToLowerASCII (scripted all_fine)
         (provisioner true true) (request 1073741824 {[ "foo" := "bar" ]})
         [("foo", "bar")]) (start 0%nat)
  = (Returned (Err (invalid_parameter "foo")),
     {| world := 4%nat;
        calls := [CallCreateVolume "team-a-claim1-pv-0001";
                  CallSetQuotaSize "team-a-claim1-pv-0001" 1073741824;
                  CallExportVolume "team-a-claim1-pv-0001";
                  CallMkdirAll "/ifs/data/k8s/team-a-claim1-pv-0001"
                               0x1ff%N] |}).
Proof.
  destruct (Provision_unknown_parameter strings.ToLowerASCII
              (scripted all_fine) (provisioner true true)
              (request 1073741824 {[ "foo" := "bar" ]}) [("foo", "bar")]
              (start 0%nat) "foo" "bar") as (_ & Hfails & _).
  - unfold visits. simpl. by rewrite map_to_list_singleton.
  - reflexivity.
  - discriminate.
  - edestruct Hfails as (k' & [v' Hv'] & _ & ->); [reflexivity|].
    simpl in Hv'. by apply lookup_singleton_Some in Hv' as [<- _].
Defined.

(** C6, as stated, fails twice over.  With the quota policy on and no
    size asked for, the request with the parameter [foo] fails with the
    policy violation, which is not a parameter error; and the key
    [MountOptions], which is not [mountOptions], is accepted. *)
Lemma Provision_unknown_parameter_other_outcomes :
  ((run (Provision strings.ToLowerASCII (scripted all_fine)
           (provisioner true false) (request 0 {[ "foo" := "bar" ]})
           [("foo", "bar")]) (start 0%nat)).1
   = Returned (Err policy_violation)
   ∧ ∀ k, policy_violation ≠ invalid_parameter k)
  ∧ ((∃ pv,
        (run (Provision strings.ToLowerASCII (scripted all_fine)
                (provisioner false false)
                (request 0 {[ "MountOptions" := "nolock,vers=3" ]})
                [("MountOptions", "nolock,vers=3")]) (start 0%nat)).1
        = Returned (Ok pv)
        ∧ MountOptions pv = ["nolock"; "vers=3"])
     ∧ "MountOptions" ≠ "mountOptions").
Proof.
  split_and!.
  - by vm_compute.
  - discriminate.
  - eexists. split; [by vm_compute|by vm_compute].
  - discriminate.
Qed.

(** C9: a record that [Provision] returns carries the provisioner's
    identity as its ownership tag and the name of the backend volume as
    its volume annotation.  The identity has no other use: [Provision]
    with another identity does the same but for the tag it writes, and
    [Delete] depends on the identity only through whether the record's
    tag equals it. *)
Theorem identity_tag_only (ToLower : string → string) (c : Client)
    (p : isilonProvisioner) (s : State (World c)) :
  (∀ options entries pv s',
     run (Provision ToLower c p options entries) s = (Returned (Ok pv), s') →
     Annotations pv !! "isilonProvisionerIdentity" = Some (identity p)
     ∧ Annotations pv !! "isilonVolume" = Some (pvName options))
  ∧ (∀ options entries id,
       run (Provision ToLower c (with_identity id p) options entries) s
       = (retag id (run (Provision ToLower c p options entries) s).1,
          (run (Provision ToLower c p options entries) s).2))
  ∧ (∀ volume id,
       (Annotations volume !! "isilonProvisionerIdentity" = Some id
        ↔ Annotations volume !! "isilonProvisionerIdentity"
          = Some (identity p)) →
       run (Delete c (with_identity id p) volume) s
       = run (Delete c p volume) s).
Proof.
  split_and!.
  - intros options entries pv s'. unfold Provision, pvName.
    destruct (range_Parameters_cases ToLower c entries []) as [[mo ->]|[k ->]];
      intros Hrun; run_body; by simplify_map_eq.
  - intros options entries id. unfold Provision. simpl.
    destruct (range_Parameters_cases ToLower c entries []) as [[mo ->]|[k ->]];
      run_body;
      first [ done | do 3 f_equal; f_equal; by rewrite insert_insert_eq ].
  - intros volume id Hsame. unfold Delete. simpl.
    destruct (Annotations volume !! "isilonProvisionerIdentity")
      as [ann|]; [|done].
    assert (ann = id ↔ ann = identity p) as Hann.
    { destruct Hsame as [H1 H2]. split; intros ->.
      - by injection (H1 eq_refl). - by injection (H2 eq_refl). }
    repeat case_decide; try done; exfalso; tauto.
Qed.

Lemma identity_tag_only_witness :
  ∃ pv s',
    run (Provision strings.ToLowerASCII (scripted all_fine)
           (provisioner true true) (request 1073741824 ∅) []) (start 0%nat)
    = (Returned (Ok pv), s')
    ∧ Annotations pv !! "isilonProvisionerIdentity" = Some "isilon.example.com"
    ∧ Annotations pv !! "isilonVolume" = Some "team-a-claim1-pv-0001".
Proof.
  eexists _, _. split; [reflexivity|].
  apply (proj1 (identity_tag_only strings.ToLowerASCII (scripted all_fine)
                  (provisioner true true) (start 0%nat))
           (request 1073741824 ∅) [] _ _ eq_refl).
Defined.

(** C8: the request team-a / claim1 / pv-0001 with no size and no
    parameter, quota and export policies off.  When [CreateVolume] and
    [MkdirAll] succeed, [Provision] returns a record whose volume
    annotation is [team-a-claim1-pv-0001] and whose NFS path ends in that
    name, having made those two calls and no other. *)
Theorem Provision_scenario_1 (ToLower : string → string) (c : Client)
    (p : isilonProvisioner) (options : VolumeOptions)
    (entries : list (string * string)) (s : State (World c))
    (vol : Volume c) (w1 w2 : World c) :
  quotaEnable p = false →
  exportsEnable p = false →
  pvc_Namespace (PVC options) = "team-a" →
  pvc_Name (PVC options) = "claim1" →
  PVName options = "pv-0001" →
  pvcSize options = 0 →
  Parameters options = ∅ →
  visits options entries →
  CreateVolume c "team-a-claim1-pv-0001" (world s) = (Ok vol, w1) →
  MkdirAll c (mount_path p options) 0x1ff%N w1 = (None, w2) →
  ∃ pv dir,
    run (Provision ToLower c p options entries) s
    = (Returned (Ok pv),
       {| world := w2;
          calls := calls s ++ [CallCreateVolume "team-a-claim1-pv-0001";
                               CallMkdirAll (mount_path p options) 0x1ff%N] |})
    ∧ Annotations pv !! "isilonVolume" = Some "team-a-claim1-pv-0001"
    ∧ NFS pv = Some {| Server := serverName p;
                       Path := dir +:+ "team-a-claim1-pv-0001";
                       ReadOnly := false |}.
Proof.
  intros Hquota Hexports Hns Hname Hpv Hsize Hparams Hvisits Hcreate Hmkdir.
  unfold visits in Hvisits. rewrite Hparams, map_to_list_empty in Hvisits.
  apply Permutation_nil_r in Hvisits as ->.
  assert (pvName options = "team-a-claim1-pv-0001") as Hvolume
    by (unfold pvName; by rewrite Hns, Hname, Hpv).
  destruct (Join_ends_with (volumePath p) "team-a-claim1-pv-0001")
    as [dir Hdir].
  { split_and!; [done|not_in_trace|done|done]. }
  unfold mount_path in *. rewrite Hvolume in Hmkdir.
  unfold Provision. fold (pvName options).
  rewrite Hvolume, Hquota, Hexports, Hdir in *.
  unfold_monad. simpl. rewrite Hcreate. simpl. rewrite Hmkdir. simpl.
  eexists _, dir. split; [by rewrite <- app_assoc|].
  split; [by simplify_map_eq|done].
Qed.

Lemma Provision_scenario_1_witness :
  ∃ pv,
    (run (Provision strings.ToLowerASCII (scripted all_fine)
            (provisioner false false) (request 0 ∅) []) (start 0%nat)).1
    = Returned (Ok pv)
    ∧ Annotations pv !! "isilonVolume" = Some "team-a-claim1-pv-0001"
    ∧ (Path <$> NFS pv) = Some "/ifs/data/k8s/team-a-claim1-pv-0001".
Proof.
  destruct (Provision_scenario_1 strings.ToLowerASCII (scripted all_fine)
              (provisioner false false) (request 0 ∅) [] (start 0%nat)
              "team-a-claim1-pv-0001" 1%nat 2%nat)
    as (pv & dir & Hrun & Hvolume & Hpath); try reflexivity.
  - unfold visits. simpl. by rewrite map_to_list_empty.
  - exists pv. rewrite Hrun. split_and!; [done..|].
    injection Hrun as <-. reflexivity.
Defined.

(** ** More on provisioning *)

Section ProvisionMore.

Variable ToLower : string → string.
Variable isiClient : Client.

Lemma first_unknown_cons (k v : string) (entries : list (string * string)) :
  first_unknown ToLower ((k, v) :: entries)
  = if decide (ToLower k = "mountoptions")
    then first_unknown ToLower entries else Some k.
Proof.
  unfold first_unknown. rewrite fmap_cons. simpl.
  case_decide.
  - by rewrite filter_cons_False by (by intros ?).
  - by rewrite filter_cons_True by done.
Qed.

(** What the loop over the parameters comes to, in one equation. *)
Lemma range_Parameters_spec (entries : list (string * string))
    (mountOptions : list string) :
  range_Parameters ToLower isiClient entries mountOptions
  = match first_unknown ToLower entries with
    | Some k => return_ (Err (invalid_parameter k))
    | None => mret (match last entries with
                    | Some (_, v) => strings.Split v ","%char
                    | None => mountOptions
                    end)
    end.
Proof.
  revert mountOptions.
  induction entries as [|[k v] entries IH]; intros mountOptions; [done|].
  rewrite first_unknown_cons. simpl range_Parameters.
  case_decide; [|done]. rewrite IH.
  destruct (first_unknown ToLower entries); [done|].
  destruct entries as [|e entries]; [reflexivity|].
  rewrite last_cons_cons.
  destruct (last (e :: entries)) as [[k' v']|] eqn:Hlast; [done|].
  by apply last_None in Hlast.
Qed.

End ProvisionMore.

Ltac run_Provision ToLower c entries :=
  unfold Provision;
  rewrite (range_Parameters_spec ToLower c entries []);
  fold (mount_options_of entries);
  destruct (first_unknown ToLower entries) eqn:?;
  run_body.

(** X1: when [CreateVolume] fails, [Provision] returns its error as it
    is, and has made no other call. *)
Theorem Provision_CreateVolume_failure (ToLower : string → string) (c : Client)
    (p : isilonProvisioner) (options : VolumeOptions)
    (entries : list (string * string)) (s : State (World c))
    (err : error) (w1 : World c) :
  CreateVolume c (pvName options) (world s) = (Err err, w1) →
  run (Provision ToLower c p options entries) s
  = (Returned (Err err),
     {| world := w1; calls := calls s ++ [CallCreateVolume (pvName options)] |}).
Proof.
  intros Hcreate. unfold Provision, pvName in *.
  unfold_monad. simpl. by rewrite Hcreate.
Qed.

Lemma Provision_CreateVolume_failure_witness :
  run (Provision strings.ToLowerASCII (scripted create_fails)
         (provisioner false true) (request 1073741824 ∅) []) (start 0%nat)
  = (Returned (Err (foreign_error "create failed")),
     {| world := 1%nat;
        calls := [CallCreateVolume "team-a-claim1-pv-0001"] |}).
Proof.
  apply (Provision_CreateVolume_failure strings.ToLowerASCII
           (scripted create_fails) (provisioner false true)
           (request 1073741824 ∅) [] (start 0%nat)).
  reflexivity.
Defined.

(** X2: when the directory of the volume cannot be made, [Provision]
    never returns a record.  When the steps before it pass ([CreateVolume]
    gives a volume, the size is positive if the quota policy is on,
    [ExportVolume] gives no error if the export policy is on), [Provision]
    returns the error of [MkdirAll] as it is; its calls are then the whole
    plan, ending with [MkdirAll], and the world is the one [MkdirAll]
    left: none of the backend steps made before is taken back. *)
Theorem Provision_MkdirAll_failure (ToLower : string → string) (c : Client)
    (p : isilonProvisioner) (options : VolumeOptions)
    (entries : list (string * string)) (s : State (World c)) (err : error) :
  (∀ w, (MkdirAll c (mount_path p options) 0x1ff%N w).1 = Some err) →
  let created := CreateVolume c (pvName options) (world s) in
  let w2 :=
    if quotaEnable p
    then (SetQuotaSize c (pvName options) (pvcSize options) created.2).2
    else created.2 in
  let exported := ExportVolume c (pvName options) w2 in
  let w3 := if exportsEnable p then exported.2 else w2 in
  (∀ pv, (run (Provision ToLower c p options entries) s).1 ≠ Returned (Ok pv))
  ∧ ((∃ vol, created.1 = Ok vol) →
     (quotaEnable p = true → 0 < pvcSize options) →
     (exportsEnable p = true → ∃ handle, exported.1 = Ok handle) →
     run (Provision ToLower c p options entries) s
     = (Returned (Err err),
        {| world := (MkdirAll c (mount_path p options) 0x1ff%N w3).2;
           calls := calls s ++ provision_plan p options |})).
Proof.
  unfold provision_plan, mount_path, pvName, pvcSize. intros Hmkdir.
  assert (∀ w w' r, MkdirAll c (path.Join [volumePath p;
            strings.Join [pvc_Namespace (PVC options); pvc_Name (PVC options);
                          PVName options] "-"]) 0x1ff%N w = (r, w') →
          r = Some err) as Hfails.
  { intros w w' r Hm. specialize (Hmkdir w). by rewrite Hm in Hmkdir. }
  clear Hmkdir. simpl. split.
  - run_Provision ToLower c entries;
      repeat match goal with
             | H : MkdirAll _ _ _ _ = _ |- _ => apply Hfails in H; simplify_eq
             end;
      done.
  - intros [vol Hcreate] Hsize Hexport. unfold Provision.
    unfold_monad. simpl.
    destruct (CreateVolume c _ (world s)) as [rc w1]. simpl in *. subst rc.
    simpl. destruct (quotaEnable p), (exportsEnable p); simpl in *.
    all: try (specialize (Hsize eq_refl); case_decide; [lia|]; simpl).
    all: try (destruct (Hexport eq_refl) as [handle Hhandle]; clear Hexport).
    all: repeat (simpl in *; match goal with
           | |- context [SetQuotaSize ?k ?n ?z ?w] =>
               destruct (SetQuotaSize k n z w) as [? ?]
           | |- context [ExportVolume ?k ?n ?w] =>
               destruct (ExportVolume k n w) as [? ?]; simpl in *; subst
           | |- context [MkdirAll ?k ?n ?m ?w] =>
               let Hm := fresh "Hm" in
               destruct (MkdirAll k n m w) as [? ?] eqn:Hm;
               apply Hfails in Hm; subst
           end).
    all: rewrite <- ?app_assoc; reflexivity.
Qed.

Lemma Provision_MkdirAll_failure_witness :
  run (Provision strings.ToLowerASCII (scripted mkdir_fails)
         (provisioner true true) (request 1073741824 ∅) []) (start 0%nat)
  = (Returned (Err (foreign_error "read-only file system")),
     {| world := 4%nat;
        calls := [CallCreateVolume "team-a-claim1-pv-0001";
                  CallSetQuotaSize "team-a-claim1-pv-0001" 1073741824;
                  CallExportVolume "team-a-claim1-pv-0001";
                  CallMkdirAll "/ifs/data/k8s/team-a-claim1-pv-0001"
                    0x1ff%N] |}).
Proof.
  apply (Provision_MkdirAll_failure strings.ToLowerASCII (scripted mkdir_fails)
           (provisioner true true) (request 1073741824 ∅) [] (start 0%nat)
           (foreign_error "read-only file system")).
  - intros w. reflexivity.
  - by eexists.
  - reflexivity.
  - by eexists.
Defined.

(** X3: the calls of [Provision] are, in this order, [CreateVolume],
    [SetQuotaSize] if the quota policy is on, [ExportVolume] if the export
    policy is on, and [MkdirAll], all for the one volume name; a run may
    stop early, but never before [CreateVolume], and a run that returns a
    record has made them all.  [SetQuotaSize] is only ever called with a
    positive size. *)
Theorem Provision_follows_plan (ToLower : string → string) (c : Client)
    (p : isilonProvisioner) (options : VolumeOptions)
    (entries : list (string * string)) (s : State (World c)) :
  ∃ t, calls (run (Provision ToLower c p options entries) s).2 = calls s ++ t
       ∧ t ≠ []
       ∧ t `prefix_of` provision_plan p options
       ∧ (∀ pv, (run (Provision ToLower c p options entries) s).1
                = Returned (Ok pv) →
                t = provision_plan p options)
       ∧ (∀ name size, CallSetQuotaSize name size ∈ t → 0 < size).
Proof.
  unfold provision_plan, mount_path, pvName, pvcSize.
  run_Provision ToLower c entries; rewrite <- ?app_assoc; simpl;
    eexists; (split; [reflexivity|]); (split; [done|]);
    (split; [by eexists|]);
    (split; [by intros ? [=]|]);
    intros name size Hin;
    repeat (apply elem_of_cons in Hin as [Hin|Hin];
            [first [discriminate Hin | injection Hin as -> ->; lia]|]);
    by apply elem_of_nil in Hin.
Qed.

(** X4: an error that [Provision] returns is the error of [CreateVolume],
    or the policy violation (quota policy on, size not positive), or the
    error of [MkdirAll], or the parameter error of the first key, in the
    order of the visit, that does not lower-case to [mountoptions]. *)
Theorem Provision_returned_errors (ToLower : string → string) (c : Client)
    (p : isilonProvisioner) (options : VolumeOptions)
    (entries : list (string * string)) (s : State (World c)) (err : error) :
  (run (Provision ToLower c p options entries) s).1 = Returned (Err err) →
  (CreateVolume c (pvName options) (world s)).1 = Err err
  ∨ (quotaEnable p = true ∧ pvcSize options ≤ 0 ∧ err = policy_violation)
  ∨ (∃ w, (MkdirAll c (mount_path p options) 0x1ff%N w).1 = Some err)
  ∨ (∃ k, first_unknown ToLower entries = Some k ∧ err = invalid_parameter k).
Proof.
  unfold mount_path, pvName, pvcSize.
  run_Provision ToLower c entries; intros Hrun; simplify_eq;
    first
      [ by left
      | by right; left
      | right; right; left;
        match goal with
        | H : MkdirAll _ _ _ ?w = _ |- _ => exists w; by rewrite H
        end
      | right; right; right; by eexists ].
Qed.

Lemma Provision_returned_errors_witness :
  first_unknown strings.ToLowerASCII
    [("MountOptions", "nolock"); ("foo", "bar"); ("baz", "")]
  = Some "foo".
Proof.
  destruct (Provision_returned_errors strings.ToLowerASCII (scripted all_fine)
              (provisioner true true)
              (request 1073741824
                 {[ "MountOptions" := "nolock"; "foo" := "bar"; "baz" := "" ]})
              [("MountOptions", "nolock"); ("foo", "bar"); ("baz", "")]
              (start 0%nat) (invalid_parameter "foo") eq_refl)
    as [Hcreate|[(_ & _ & Hpolicy)|[[w Hmkdir]|(k & Hk & Hkey)]]].
  - discriminate Hcreate.
  - discriminate Hpolicy.
  - discriminate Hmkdir.
  - injection Hkey as <-. exact Hk.
Defined.

(** X5: [Provision] panics only when the export policy is on and
    [ExportVolume] fails, and then with the error of [ExportVolume]. *)
Theorem Provision_panics_on_export_only (ToLower : string → string)
    (c : Client) (p : isilonProvisioner) (options : VolumeOptions)
    (entries : list (string * string)) (s : State (World c)) (err : error) :
  (run (Provision ToLower c p options entries) s).1 = Panicked err →
  exportsEnable p = true
  ∧ ∃ w, (ExportVolume c (pvName options) w).1 = Err err.
Proof.
  unfold pvName.
  run_Provision ToLower c entries; intros Hrun; simplify_eq;
    (split; [done|]);
    match goal with
    | H : ExportVolume _ _ ?w = _ |- _ => exists w; by rewrite H
    end.
Qed.

Lemma Provision_panics_on_export_only_witness :
  exportsEnable (provisioner true true) = true
  ∧ ∃ w, (ExportVolume (scripted export_fails) "team-a-claim1-pv-0001" w).1
         = Err (foreign_error "export failed").
Proof.
  apply (Provision_panics_on_export_only strings.ToLowerASCII
           (scripted export_fails) (provisioner true true)
           (request 1073741824 ∅) [] (start 0%nat)
           (foreign_error "export failed")).
  reflexivity.
Defined.

(** X6: a record that [Provision] returns is the one of lines 139-162:
    named after the target, tagged with the identity and the volume name
    and nothing else, with the policy, access modes and capacity of the
    request, the server of the provisioner and the directory of the
    volume.  Its mount options are those of the parameter visited last
    (none without parameters), and every key lower-cases to
    [mountoptions]. *)
Theorem Provision_record (ToLower : string → string) (c : Client)
    (p : isilonProvisioner) (options : VolumeOptions)
    (entries : list (string * string)) (s : State (World c))
    (pv : PersistentVolume) :
  (run (Provision ToLower c p options entries) s).1 = Returned (Ok pv) →
  pv = assembled p options (mount_options_of entries)
  ∧ Forall (λ kv, ToLower kv.1 = "mountoptions") entries.
Proof.
  unfold assembled, mount_path, pvName.
  assert (first_unknown ToLower entries = None →
          Forall (λ kv, ToLower kv.1 = "mountoptions") entries) as Hknown.
  { unfold first_unknown. intros Hnone. apply head_None in Hnone.
    apply Forall_forall. intros [k v] Hin.
    destruct (decide (ToLower k = "mountoptions")) as [|Hk]; [done|].
    assert (k ∈ filter (λ k, ToLower k ≠ "mountoptions") entries.*1) as Hf.
    { apply list_elem_of_filter. split; [done|].
      apply list_elem_of_fmap. by exists (k, v). }
    rewrite Hnone in Hf. by apply elem_of_nil in Hf. }
  run_Provision ToLower c entries; intros Hrun; simplify_eq;
    (split; [done|by apply Hknown]).
Qed.

Lemma Provision_record_witness :
  ∃ pv,
    (run (Provision strings.ToLowerASCII (scripted all_fine)
            (provisioner true true)
            (request 1073741824
               {[ "mountOptions" := "nolock,vers=3" ]})
            [("mountOptions", "nolock,vers=3")]) (start 0%nat)).1
    = Returned (Ok pv)
    ∧ MountOptions pv = ["nolock"; "vers=3"]
    ∧ Name pv = "pv-0001"
    ∧ dom (Annotations pv) = {[ "isilonProvisionerIdentity"; "isilonVolume" ]}.
Proof.
  eexists. split; [reflexivity|].
  match goal with
  | |- MountOptions ?pv = _ ∧ _ =>
      destruct (Provision_record strings.ToLowerASCII (scripted all_fine)
                  (provisioner true true)
                  (request 1073741824 {[ "mountOptions" := "nolock,vers=3" ]})
                  [("mountOptions", "nolock,vers=3")] (start 0%nat) pv eq_refl)
        as [-> _]
  end.
  split_and!; [reflexivity|reflexivity|].
  unfold assembled. simpl. by rewrite dom_insert_L, dom_singleton_L.
Defined.

(** *** Mount options and directories *)

Lemma Split_nonempty (s : string) (sep : ascii) : strings.Split s sep ≠ [].
Proof.
  destruct s as [|a s]; [done|]. unfold strings.Split; fold strings.Split.
  case_decide; [done|]. by destruct (strings.Split s sep).
Qed.

(** Joining the pieces of a split with the separator gives the string back. *)
Lemma Join_Split (s : string) (sep : ascii) :
  strings.Join (strings.Split s sep) (String sep "") = s.
Proof.
  unfold strings.Join.
  induction s as [|a s IH]; [done|].
  unfold strings.Split; fold strings.Split.
  pose proof (Split_nonempty s sep) as Hne.
  destruct (strings.Split s sep) as [|piece pieces]; [done|].
  case_decide as Ha.
  - subst a. change (String sep (String.concat (String sep "") (piece :: pieces))
                     = String sep s).
    by rewrite IH.
  - rewrite <- IH. by destruct pieces.
Qed.

(** No piece of a split holds the separator. *)
Lemma Split_pieces (s : string) (sep : ascii) :
  Forall (λ piece, mentions sep piece = false) (strings.Split s sep).
Proof.
  induction s as [|a s IH]; [by repeat constructor|].
  unfold strings.Split; fold strings.Split.
  case_decide as Ha; [by constructor|].
  destruct (strings.Split s sep) as [|piece pieces].
  - repeat constructor. simpl. rewrite bool_decide_eq_false_2; done.
  - apply Forall_cons in IH as [Hpiece Hpieces]. constructor; [|done].
    simpl. rewrite bool_decide_eq_false_2; done.
Qed.

(** X7: the mount options of a record are the pieces, between commas, of
    the value of the parameter visited last: there is at least one, none
    holds a comma, and joined by commas they give the value back.  A
    request without parameters gets a record without mount options. *)
Theorem Provision_mount_options (ToLower : string → string) (c : Client)
    (p : isilonProvisioner) (options : VolumeOptions)
    (entries : list (string * string)) (s : State (World c))
    (pv : PersistentVolume) :
  (run (Provision ToLower c p options entries) s).1 = Returned (Ok pv) →
  (entries = [] → MountOptions pv = [])
  ∧ (∀ k v, last entries = Some (k, v) →
       strings.Join (MountOptions pv) "," = v
       ∧ MountOptions pv ≠ []
       ∧ Forall (λ option, mentions "," option = false) (MountOptions pv)).
Proof.
  run_Provision ToLower c entries; intros Hrun; simplify_eq;
    (split; [by intros ->|]);
    intros k v Hlast; unfold mount_options_of; rewrite Hlast;
    (split_and!;
     [apply Join_Split|apply Split_nonempty|apply Split_pieces]).
Qed.

Lemma Provision_mount_options_witness :
  ∃ pv,
    (run (Provision strings.ToLowerASCII (scripted all_fine)
            (provisioner false false)
            (request 0 {[ "mountOptions" := "nolock,,vers=3" ]})
            [("mountOptions", "nolock,,vers=3")]) (start 0%nat)).1
    = Returned (Ok pv)
    ∧ MountOptions pv = ["nolock"; ""; "vers=3"]
    ∧ strings.Join (MountOptions pv) "," = "nolock,,vers=3".
Proof.
  eexists. split; [reflexivity|]. split; [reflexivity|].
  eapply (proj2 (Provision_mount_options strings.ToLowerASCII
                   (scripted all_fine) (provisioner false false)
                   (request 0 {[ "mountOptions" := "nolock,,vers=3" ]})
                   [("mountOptions", "nolock,,vers=3")] (start 0%nat)
                   _ eq_refl) "mountOptions").
  reflexivity.
Defined.

Lemma mentions_bytes (a : ascii) (s : string) :
  mentions a s = false ↔ a ∉ String.list_ascii_of_string s.
Proof.
  induction s as [|b s IH]; simpl.
  - split; [intros _; apply not_elem_of_nil|done].
  - rewrite orb_false_iff, bool_decide_eq_false, IH, not_elem_of_cons. done.
Qed.

(** The name of a volume whose fields hold no slash is a real path element. *)
Lemma pvName_plain (options : VolumeOptions) :
  slash_free options →
  plain_element (String.list_ascii_of_string (pvName options)).
Proof.
  intros (Hns & Hn & Hpv). rewrite mentions_bytes in Hns, Hn, Hpv.
  rewrite pvName_unfold, bytes_app. simpl. rewrite bytes_app. simpl.
  assert ("-"%char ∈ String.list_ascii_of_string (pvc_Namespace (PVC options))
            ++ "-"%char :: String.list_ascii_of_string (pvc_Name (PVC options))
            ++ "-"%char :: String.list_ascii_of_string (PVName options))
    as Hdash by (apply elem_of_app; right; by left).
  split_and!.
  - intros Hnil. rewrite Hnil in Hdash. by apply elem_of_nil in Hdash.
  - rewrite not_elem_of_app, not_elem_of_cons, not_elem_of_app,
      not_elem_of_cons. by split_and!.
  - intros Heq. rewrite Heq in Hdash. revert Hdash. not_in_trace.
  - intros Heq. rewrite Heq in Hdash. revert Hdash. not_in_trace.
Qed.

(** X8: when no field of the request holds a slash, the directory of the
    volume ends in the name of the volume, whatever the root path of the
    provisioner is. *)
Theorem mount_path_ends_in_name (p : isilonProvisioner)
    (options : VolumeOptions) :
  slash_free options →
  ∃ dir, mount_path p options = dir +:+ pvName options.
Proof.
  intros Hfree. unfold mount_path.
  apply Join_ends_with. by apply pvName_plain.
Qed.

Lemma mount_path_ends_in_name_witness :
  ∃ dir, mount_path (provisioner false false) (request 0 ∅)
         = dir +:+ "team-a-claim1-pv-0001".
Proof.
  apply (mount_path_ends_in_name (provisioner false false) (request 0 ∅)).
  by split_and!.
Defined.

(** ** More on deletion *)

(** X9: a record that carries the provisioner's tag but names no backend
    volume is turned down with an [IgnoredError], and no call is made. *)
Theorem Delete_unnamed_volume (c : Client) (p : isilonProvisioner)
    (volume : PersistentVolume) (s : State (World c)) :
  Annotations volume !! "isilonProvisionerIdentity" = Some (identity p) →
  Annotations volume !! "isilonVolume" = None →
  run (Delete c p volume) s = (Returned (Some volume_unnamed), s)
  ∧ is_ignored volume_unnamed = true.
Proof.
  intros Htag Hvol. unfold Delete. rewrite Htag, Hvol.
  by case_decide.
Qed.

Lemma Delete_unnamed_volume_witness :
  run (Delete (scripted all_fine) (provisioner true true)
         (record {[ "isilonProvisionerIdentity" := "isilon.example.com" ]}))
      (start 0%nat)
  = (Returned (Some volume_unnamed), start 0%nat).
Proof.
  apply (Delete_unnamed_volume (scripted all_fine) (provisioner true true)
           (record {[ "isilonProvisionerIdentity" := "isilon.example.com" ]})
           (start 0%nat)); reflexivity.
Defined.

(** X10: whatever the policies, the calls of [Delete] on an owned record
    are, in this order, [GetQuota] and then [ClearQuota] if a quota was
    found, both only with the quota policy on; [Unexport], only with the
    export policy on; and [DeleteVolume]; all for the volume the record
    names.  A run that panics stops on the way; one that returns has made
    them all and returns [nil]. *)
Theorem Delete_follows_plan (c : Client) (p : isilonProvisioner)
    (volume : PersistentVolume) (v : string) (s : State (World c)) :
  owned p volume v →
  ∃ t, calls (run (Delete c p volume) s).2 = calls s ++ t
       ∧ t ≠ []
       ∧ t `prefix_of` teardown_plan c p v (world s)
       ∧ (∀ err, (run (Delete c p volume) s).1 = Returned err →
            err = None ∧ t = teardown_plan c p v (world s)).
Proof.
  intros [Htag Hvol]. unfold Delete, teardown_plan, quota_found.
  rewrite Htag, Hvol. case_decide; [done|].
  run_body; rewrite <- ?app_assoc; simpl;
    eexists; (split; [reflexivity|]); (split; [done|]);
    (split; [|by intros ? [=]]);
    first [ done | by eexists [_] | by eexists [_; _] | by eexists [_; _; _] ].
Qed.

Lemma Delete_follows_plan_witness :
  ∃ t, calls (run (Delete (scripted all_fine) (provisioner false false)
                     owned_record) (start 0%nat)).2 = [] ++ t
       ∧ t ≠ []
       ∧ t `prefix_of` [CallDeleteVolume "team-a-claim1-pv-0001"]
       ∧ (∀ err, (run (Delete (scripted all_fine) (provisioner false false)
                         owned_record) (start 0%nat)).1 = Returned err →
            err = None ∧ t = [CallDeleteVolume "team-a-claim1-pv-0001"]).
Proof.
  apply (Delete_follows_plan (scripted all_fine) (provisioner false false)
           owned_record "team-a-claim1-pv-0001" (start 0%nat)).
  split; reflexivity.
Defined.

(** X11: how [Delete] can end.  An error it returns is one of three, the
    record is then not this provisioner's to delete or names no volume,
    and nothing was called.  When it returns [nil], the record was owned
    and [DeleteVolume] reported no error.  When it panics, the record was
    owned and the error is one reported by [ClearQuota], [Unexport] or
    [DeleteVolume]. *)
Theorem Delete_outcomes (c : Client) (p : isilonProvisioner)
    (volume : PersistentVolume) (s : State (World c)) :
  match (run (Delete c p volume) s).1 with
  | Returned (Some err) =>
      (run (Delete c p volume) s).2 = s
      ∧ ((err = tag_missing
          ∧ Annotations volume !! "isilonProvisionerIdentity" = None)
         ∨ (err = tag_foreign
            ∧ ∃ ann, Annotations volume !! "isilonProvisionerIdentity"
                     = Some ann ∧ ann ≠ identity p)
         ∨ (err = volume_unnamed
            ∧ Annotations volume !! "isilonProvisionerIdentity"
              = Some (identity p)
            ∧ Annotations volume !! "isilonVolume" = None))
  | Returned None =>
      ∃ v, owned p volume v ∧ ∃ w, (DeleteVolume c v w).1 = None
  | Panicked err =>
      ∃ v, owned p volume v
           ∧ ((quotaEnable p = true ∧ ∃ w, (ClearQuota c v w).1 = Some err)
              ∨ (exportsEnable p = true ∧ ∃ w, (Unexport c v w).1 = Some err)
              ∨ ∃ w, (DeleteVolume c v w).1 = Some err)
  end.
Proof.
  unfold Delete, owned, tag_missing, tag_foreign, volume_unnamed.
  destruct (Annotations volume !! "isilonProvisionerIdentity") as [ann|];
    [|by split; [|left]].
  case_decide as Hann; [simpl; split; [done|right; left; by eauto]|].
  subst ann.
  destruct (Annotations volume !! "isilonVolume") as [v|];
    [|simpl; split; [done|by right; right]].
  run_body; exists v; (split; [done|]);
    first
      [ match goal with
        | H : DeleteVolume _ _ ?w = (None, _) |- _ => exists w; by rewrite H
        end
      | left; split; [done|];
        match goal with
        | H : ClearQuota _ _ ?w = _ |- _ => exists w; by rewrite H
        end
      | right; left; split; [done|];
        match goal with
        | H : Unexport _ _ ?w = _ |- _ => exists w; by rewrite H
        end
      | right; right;
        match goal with
        | H : DeleteVolume _ _ ?w = _ |- _ => exists w; by rewrite H
        end ].
Qed.

(** ** Provisioning, then deletion *)

(** A record that [Provision] returns is owned by its provisioner. *)
Lemma Provision_record_owned (ToLower : string → string) (c : Client)
    (p : isilonProvisioner) (options : VolumeOptions)
    (entries : list (string * string)) (s : State (World c))
    (pv : PersistentVolume) :
  (run (Provision ToLower c p options entries) s).1 = Returned (Ok pv) →
  owned p pv (pvName options).
Proof.
  unfold owned, pvName.
  run_Provision ToLower c entries; intros Hrun; simplify_eq;
    by simplify_map_eq.
Qed.

(** X12: [Delete] undoes [Provision].  The record [Provision] returns is
    owned by the provisioner that made it, and names the volume that
    [CreateVolume] was called for; a [Delete] of it that returns has
    called [DeleteVolume] for that very name, last; and a provisioner
    with another identity turns the record down without a call. *)
Theorem Provision_then_Delete (ToLower : string → string) (c : Client)
    (p : isilonProvisioner) (options : VolumeOptions)
    (entries : list (string * string)) (s : State (World c))
    (pv : PersistentVolume) :
  (run (Provision ToLower c p options entries) s).1 = Returned (Ok pv) →
  owned p pv (pvName options)
  ∧ CallCreateVolume (pvName options)
    ∈ calls (run (Provision ToLower c p options entries) s).2
  ∧ (∀ s2 err, (run (Delete c p pv) s2).1 = Returned err →
       err = None
       ∧ last (calls (run (Delete c p pv) s2).2)
         = Some (CallDeleteVolume (pvName options)))
  ∧ (∀ p' s2, identity p' ≠ identity p →
       run (Delete c p' pv) s2 = (Returned (Some tag_foreign), s2)).
Proof.
  intros Hrun.
  pose proof (Provision_record_owned _ _ _ _ _ _ _ Hrun) as [Htag Hvol].
  split_and!.
  - by split.
  - clear Htag Hvol. revert Hrun. unfold pvName.
    run_Provision ToLower c entries; intros Hrun; simplify_eq;
      rewrite <- ?app_assoc; apply elem_of_app; right; by left.
  - intros s2 err. unfold Delete. rewrite Htag, Hvol.
    case_decide; [done|].
    run_body; intros [=]; subst; (split; [done|]); by rewrite last_snoc.
  - intros p' s2 Hother. unfold Delete. rewrite Htag.
    case_decide; [done|congruence].
Qed.

Lemma Provision_then_Delete_witness :
  ∃ pv s',
    run (Provision strings.ToLowerASCII (scripted all_fine)
           (provisioner true true) (request 1073741824 ∅) []) (start 0%nat)
    = (Returned (Ok pv), s')
    ∧ run (Delete (scripted all_fine) (provisioner true true) pv) s'
      = (Returned None,
         {| world := 8%nat;
            calls := calls s'
              ++ full_teardown true "team-a-claim1-pv-0001" |})
    ∧ owned (provisioner true true) pv "team-a-claim1-pv-0001".
Proof.
  eexists _, _. split; [reflexivity|]. split; [reflexivity|].
  apply (Provision_then_Delete strings.ToLowerASCII (scripted all_fine)
           (provisioner true true) (request 1073741824 ∅) [] (start 0%nat)).
  reflexivity.
Defined.

(** ** The start of the process *)

(** X13: with the cluster up, [main] stops with [glog.Fatal] on the first
    of ISI_SERVER, ISI_PATH, ISI_USER and ISI_PASS, in this order, that
    is unset or empty, and names it. *)
Theorem main_required_settings (ToUpper : string → string) (h : Host)
    (clientset : Clientset h) (version : Info) :
  cluster_up h clientset version →
  (Getenv h "ISI_SERVER" = "" →
   main ToUpper h = glog_Fatal "ISI_SERVER not set")
  ∧ (Getenv h "ISI_SERVER" ≠ "" → Getenv h "ISI_PATH" = "" →
     main ToUpper h = glog_Fatal "ISI_PATH not set")
  ∧ (Getenv h "ISI_SERVER" ≠ "" → Getenv h "ISI_PATH" ≠ "" →
     Getenv h "ISI_USER" = "" →
     main ToUpper h = glog_Fatal "ISI_USER not set")
  ∧ (Getenv h "ISI_SERVER" ≠ "" → Getenv h "ISI_PATH" ≠ "" →
     Getenv h "ISI_USER" ≠ "" → Getenv h "ISI_PASS" = "" →
     main ToUpper h = glog_Fatal "ISI_PASS not set").
Proof.
  intros (Hflags & config & Hconfig & Hclient & Hversion).
  unfold main. rewrite Hflags, Hconfig, Hclient, Hversion.
  split_and!; intros; repeat case_decide; done.
Qed.

Lemma main_required_settings_witness :
  main ToUpperASCII
    (host (delete "ISI_USER" environment) (Ok (scripted all_fine)))
  = glog_Fatal "ISI_USER not set".
Proof.
  apply (main_required_settings ToUpperASCII
           (host (delete "ISI_USER" environment) (Ok (scripted all_fine)))
           () {| GitVersion := "v1.10.0" |}).
  - split; [reflexivity|]. exists (). by split_and!.
  - discriminate.
  - discriminate.
  - reflexivity.
Defined.

(** X14: the group is not one of the settings [main] insists on: the test
    under the message for ISI_GROUP looks at the password, which was
    tested before.  So [main] never stops for ISI_GROUP, and with the
    other four settings given it asks for the connection whatever the
    group is, the empty one included. *)
Theorem main_group_not_required (ToUpper : string → string) (h : Host) :
  main ToUpper h ≠ glog_Fatal "ISI_GROUP not set"
  ∧ (∀ clientset version,
       cluster_up h clientset version →
       settings_given h →
       match connection h with
       | Ok i => ∃ pc, main ToUpper h = pc_Run pc ∧ pc_isiClient pc = i
       | Err err => main ToUpper h = main_panic err
       end).
Proof.
  split.
  - by run_main.
  - intros clientset version Hup Hgiven.
    destruct (connection h) eqn:Hconn; run_main; by eauto.
Qed.

Lemma main_group_not_required_witness :
  Getenv (host environment (Ok (scripted all_fine))) "ISI_GROUP" = ""
  ∧ ∃ pc, main ToUpperASCII (host environment (Ok (scripted all_fine)))
          = pc_Run pc
          ∧ pc_isiClient pc = scripted all_fine.
Proof.
  split; [reflexivity|].
  apply (proj2 (main_group_not_required ToUpperASCII
                  (host environment (Ok (scripted all_fine))))
           () {| GitVersion := "v1.10.0" |}).
  - split; [reflexivity|]. exists (). by split_and!.
  - by split_and!.
Defined.

(** X15: the provisioner [main] puts in service.  Its identity and its
    server name are both the value of ISI_SERVER (not the name of a
    node), its root path is ISI_PATH, its access path is ISI_ACCESSPATH or
    else ISI_PATH, and none of these is empty; a policy is on when the
    upper-cased value of its variable is TRUE, so off when the variable is
    not set; the name it is registered under is example.com/isilon; and
    its client is the one the appliance gave for the endpoint
    https://ISI_SERVER:8080. *)
Theorem main_serves (ToUpper : string → string) (h : Host)
    (pc : ProvisionController (Clientset h)) :
  main ToUpper h = pc_Run pc →
  let p := pc_provisioner pc in
  settings_given h
  ∧ identity p = Getenv h "ISI_SERVER"
  ∧ serverName p = Getenv h "ISI_SERVER"
  ∧ volumePath p = Getenv h "ISI_PATH"
  ∧ volumeAccessPath p = access_path h
  ∧ volumeAccessPath p ≠ ""
  ∧ quotaEnable p
    = bool_decide (ToUpper (Getenv h "ISI_QUOTA_ENABLE") = "TRUE")
  ∧ exportsEnable p
    = bool_decide (ToUpper (Getenv h "ISI_EXPORTS_ENABLE") = "TRUE")
  ∧ (ToUpper "" = "" →
     (environ h !! "ISI_QUOTA_ENABLE" = None → quotaEnable p = false)
     ∧ (environ h !! "ISI_EXPORTS_ENABLE" = None → exportsEnable p = false))
  ∧ pc_provisionerName pc = "example.com/isilon"
  ∧ connection h = Ok (pc_isiClient pc).
Proof.
  intros Hmain p. subst p. unfold Getenv in *.
  run_main; split_and!; try done.
  all: intros Hempty; split; intros Hunset; try done;
    repeat match goal with
           | H : _ (default "" (environ _ !! _)) = "TRUE" |- _ =>
               rewrite ?Hunset in H; simpl in H; rewrite ?Hempty in H;
               try discriminate H; revert H
           end; done.
Qed.

Lemma main_serves_witness :
  identity (pc_provisioner in_service) = "isilon.example.com"
  ∧ volumeAccessPath (pc_provisioner in_service) = "/ifs/data/k8s"
  ∧ quotaEnable (pc_provisioner in_service) = true
  ∧ exportsEnable (pc_provisioner in_service) = false.
Proof.
  destruct (main_serves ToUpperASCII
              (host environment (Ok (scripted all_fine))) in_service eq_refl)
    as (_ & Hid & _ & _ & Haccess & _ & Hquota & Hexports & _).
  split_and!; [exact Hid|exact Haccess|exact Hquota|exact Hexports].
Defined.

(** X16: ownership goes by the server, not by the process.  Take two
    processes that [main] brought into service, and a record provisioned
    by the first.  When both were started with the same ISI_SERVER, the
    second owns the record as well, and its [Delete] tears the volume
    down; when they were not, its [Delete] turns the record down without
    a call. *)
Theorem same_server_same_owner (ToUpper ToLower : string → string)
    (h1 h2 : Host) (pc1 : ProvisionController (Clientset h1))
    (pc2 : ProvisionController (Clientset h2)) (options : VolumeOptions)
    (entries : list (string * string))
    (s : State (World (pc_isiClient pc1))) (pv : PersistentVolume) :
  main ToUpper h1 = pc_Run pc1 →
  main ToUpper h2 = pc_Run pc2 →
  (run (Provision ToLower (pc_isiClient pc1) (pc_provisioner pc1)
          options entries) s).1 = Returned (Ok pv) →
  (Getenv h1 "ISI_SERVER" = Getenv h2 "ISI_SERVER" →
   owned (pc_provisioner pc2) pv (pvName options))
  ∧ (Getenv h1 "ISI_SERVER" ≠ Getenv h2 "ISI_SERVER" →
     ∀ s2, run (Delete (pc_isiClient pc2) (pc_provisioner pc2) pv) s2
           = (Returned (Some tag_foreign), s2)).
Proof.
  intros Hmain1 Hmain2 Hrun.
  pose proof (Provision_record_owned _ _ _ _ _ _ _ Hrun) as [Htag Hvol].
  assert (identity (pc_provisioner pc1) = Getenv h1 "ISI_SERVER") as Hid1
    by (clear -Hmain1; by run_main).
  assert (identity (pc_provisioner pc2) = Getenv h2 "ISI_SERVER") as Hid2
    by (clear -Hmain2; by run_main).
  split.
  - intros Hsame. split; [|done]. by rewrite Hid2, <- Hsame, <- Hid1.
  - intros Hother s2. unfold Delete. rewrite Htag.
    case_decide; [done|]. congruence.
Qed.

Lemma same_server_same_owner_witness :
  main ToUpperASCII (host environment (Ok (scripted all_fine)))
  = pc_Run in_service
  ∧ ∃ pv,
      (run (Provision strings.ToLowerASCII (scripted all_fine)
              (provisioner true false) (request 1073741824 ∅) [])
           (start 0%nat)).1 = Returned (Ok pv)
      ∧ owned (provisioner true false) pv "team-a-claim1-pv-0001".
Proof.
  split; [reflexivity|]. eexists. split; [reflexivity|].
  apply (proj1 (same_server_same_owner ToUpperASCII strings.ToLowerASCII
                  (host environment (Ok (scripted all_fine)))
                  (host environment (Ok (scripted all_fine)))
                  in_service in_service (request 1073741824 ∅) []
                  (start 0%nat) _ eq_refl eq_refl eq_refl)).
  reflexivity.
Defined.
